(** * Expense tracker: the storage layer and its three query operations

    A shallow embedding of [main.py]: the single-table store created by
    [init_db], the handlers [add_expense], [list_expenses], [summarize] and
    the [categories] resource, followed by the properties of the
    specification that were checked against them.

    Conventions.
    - A Python [str] is a [string], read as its UTF-8 bytes; the store
      compares TEXT values bytewise, which is [String.compare].
    - [Optional[str]] is [option string]; Python's [x or ''] is [or_empty].
    - The store's REAL values, their accumulation by [SUM] and their
      [ORDER BY] comparison are parameters of the development
      ([real], [radd], [rzero], [rleb]).
    - Each handler threads the database file explicitly: it receives the
      file's content and returns the content left behind.
    - Failures of the storage layer come from a [faults] oracle that tells
      which storage call raises, and with which text. *)

From Stdlib Require Import ZArith List String Ascii Bool Lia.
From Stdlib Require Import Permutation Sorted.
Import ListNotations.

Local Open Scope string_scope.
Local Open Scope list_scope.
Local Open Scope Z_scope.

(** ** Python-side helpers *)

(** Truthiness of an optional string: [None] and the empty string are falsy. *)
Definition truthy (o : option string) : bool :=
  match o with
  | Some (String _ _) => true
  | _ => false
  end.

(** [x or ''] for [x : Optional[str]]. *)
Definition or_empty (o : option string) : string :=
  match o with
  | Some s => if truthy o then s else EmptyString
  | None => EmptyString
  end.

(** Results of fallible storage calls: [inl] is a raised exception, carried
    by its text [str(e)]. *)
Definition result (T : Type) : Type := (string + T)%type.

(** The storage calls made by the program, as seen by the fault oracle. *)
Inductive api_call : Type :=
| Connect
| ExecPragma
| ExecCreate
| ExecInsert
| ExecSelect
| Commit
| FetchAll.

Definition faults : Type := api_call -> option string.

Definition no_faults : faults := fun _ => None.

Definition fail_at (c : api_call) (msg : string) : faults :=
  fun c' =>
    match c, c' with
    | Connect, Connect | ExecPragma, ExecPragma | ExecCreate, ExecCreate
    | ExecInsert, ExecInsert | ExecSelect, ExecSelect | Commit, Commit
    | FetchAll, FetchAll => Some msg
    | _, _ => None
    end.

(** ** Lexical comparison and ordering *)

(** [x BETWEEN lo AND hi] on TEXT values: [x >= lo AND x <= hi], bytewise. *)
Definition between (x lo hi : string) : bool :=
  (lo <=? x)%string && (x <=? hi)%string.

(** Stable insertion sort; [before x y] says that [x] may precede [y]. *)
Fixpoint insert_by {T : Type} (before : T -> T -> bool) (x : T) (l : list T)
  : list T :=
  match l with
  | [] => [x]
  | y :: l' => if before x y then x :: l else y :: insert_by before x l'
  end.

Definition order_by {T : Type} (before : T -> T -> bool) (l : list T)
  : list T :=
  fold_right (insert_by before) [] l.

(** ** [json.dumps]

    The fragment of JSON values the program serialises, and Python's
    encoder for it: [ensure_ascii] escaping, and the layouts of
    [indent=None] and [indent=2]. *)

#[warnings="-register-all"]
Inductive json : Type :=
| JStr (s : string)
| JArr (items : list json)
| JObj (members : list (string * json)).

Definition dquote : string := String "034"%char EmptyString.
Definition newline : string := String "010"%char EmptyString.
Definition backslash : string := String "092"%char EmptyString.

Definition hex_digit (n : N) : ascii :=
  match n with
  | 0 => "0" | 1 => "1" | 2 => "2" | 3 => "3" | 4 => "4" | 5 => "5"
  | 6 => "6" | 7 => "7" | 8 => "8" | 9 => "9" | 10 => "a" | 11 => "b"
  | 12 => "c" | 13 => "d" | 14 => "e" | _ => "f"
  end%N%char.

(** ['\\u{0:04x}'.format(n)] *)
Definition u_escape (n : N) : string :=
  (backslash ++ "u" ++
   String (hex_digit (N.land (N.shiftr n 12) 15))
  (String (hex_digit (N.land (N.shiftr n 8) 15))
  (String (hex_digit (N.land (N.shiftr n 4) 15))
  (String (hex_digit (N.land n 15)) EmptyString))))%string.

(** The escape of one code point, as [py_encode_basestring_ascii] does it:
    printable ASCII stays, the usual short escapes, [\uXXXX] otherwise,
    with a surrogate pair above the basic plane. *)
Definition escape_code_point (n : N) : string :=
  (if n =? 34 then backslash ++ dquote
   else if n =? 92 then backslash ++ backslash
   else if n =? 10 then backslash ++ "n"
   else if n =? 13 then backslash ++ "r"
   else if n =? 9 then backslash ++ "t"
   else if n =? 12 then backslash ++ "f"
   else if n =? 8 then backslash ++ "b"
   else if (32 <=? n) && (n <=? 126)
        then String (ascii_of_N n) EmptyString
   else if n <? 65536 then u_escape n
   else
     let m := n - 65536 in
     u_escape (N.lor 55296 (N.land (N.shiftr m 10) 1023)) ++
     u_escape (N.lor 56320 (N.land m 1023)))%N%string.

Definition cont_bits (b : ascii) : N := N.land (N_of_ascii b) 63.

(** The code points of a string, from its UTF-8 bytes.  A byte that does not
    start a complete sequence (which no Python [str] encodes to) counts as
    a code point of its own. *)
Fixpoint code_points (s : string) : list N :=
  match s with
  | EmptyString => []
  | String b0 s0 =>
    let n0 := N_of_ascii b0 in
    let single := n0 :: code_points s0 in
    if (n0 <? 192)%N then single
    else
      match s0 with
      | String b1 s1 =>
        if (n0 <? 224)%N
        then N.lor (N.shiftl (N.land n0 31) 6) (cont_bits b1)
             :: code_points s1
        else
          match s1 with
          | String b2 s2 =>
            if (n0 <? 240)%N
            then N.lor (N.shiftl (N.land n0 15) 12)
                   (N.lor (N.shiftl (cont_bits b1) 6) (cont_bits b2))
                 :: code_points s2
            else
              match s2 with
              | String b3 s3 =>
                N.lor (N.shiftl (N.land n0 7) 18)
                  (N.lor (N.shiftl (cont_bits b1) 12)
                     (N.lor (N.shiftl (cont_bits b2) 6) (cont_bits b3)))
                :: code_points s3
              | EmptyString => single
              end
          | EmptyString => single
          end
      | EmptyString => single
      end
  end.

Definition encode_string (s : string) : string :=
  (dquote ++ String.concat EmptyString (map escape_code_point (code_points s))
   ++ dquote)%string.

Fixpoint spaces (n : nat) : string :=
  match n with
  | O => EmptyString
  | S n' => String " "%char (spaces n')
  end.

(** The line break and indentation put before an item at nesting [level];
    nothing when [indent] is [None]. *)
Definition newline_indent (indent : option nat) (level : nat) : string :=
  match indent with
  | Some w => (newline ++ spaces (w * level))%string
  | None => EmptyString
  end.

Definition item_separator (indent : option nat) : string :=
  match indent with
  | Some _ => ","
  | None => ", "
  end.

Definition key_separator : string := ": ".

(** A container: its delimiters around the already encoded items. *)
Definition bracket (indent : option nat) (level : nat)
  (opening closing : string) (items : list string) : string :=
  match items with
  | [] => (opening ++ closing)%string
  | _ =>
    (opening ++ newline_indent indent (S level) ++
     String.concat (item_separator indent ++ newline_indent indent (S level))
       items ++
     newline_indent indent level ++ closing)%string
  end.

Fixpoint encode (indent : option nat) (level : nat) (j : json) : string :=
  match j with
  | JStr s => encode_string s
  | JArr items =>
    bracket indent level "[" "]" (map (encode indent (S level)) items)
  | JObj members =>
    bracket indent level "{" "}"
      (map (fun kv => (encode_string (fst kv) ++ key_separator ++
                       encode indent (S level) (snd kv))%string) members)
  end.

Definition dumps (indent : option nat) (j : json) : string :=
  encode indent 0 j.

(** ** The [categories] resource *)

(** The configuration file next to the program, as a read finds it. *)
Inductive config_file : Type :=
| Absent
| Present (content : string)
| Unreadable (err : string).

Definition builtin_categories : list string :=
  ["food"; "transport"; "housing"; "utilities"; "health"; "education";
   "shopping"; "entertainment"; "travel"; "business"; "misc"].

Definition fallback_document : json :=
  JObj [("categories", JArr (map JStr builtin_categories))].

Definition categories (file : config_file) : string :=
  match file with
  | Present content => content
  | Absent => dumps (Some 2%nat) fallback_document
  | Unreadable e => dumps None (JObj [("error", JStr e)])
  end.

(** ** Well-formed configuration files, in the specification's words

    The specification speaks of a configuration file that is valid JSON of
    shape [{categories: array<string>}].  [well_formed_categories_file]
    recognises such texts: one object with the single key [categories]
    holding an array of JSON strings, with JSON white space anywhere between
    the tokens.  The program itself contains no such check. *)

Definition is_ws (c : ascii) : bool :=
  match c with
  | " " | "009" | "010" | "013" => true
  | _ => false
  end%char.

Fixpoint skip_ws (s : string) : string :=
  match s with
  | String c s' => if is_ws c then skip_ws s' else s
  | EmptyString => s
  end.

Definition expect (c : ascii) (s : string) : option string :=
  match s with
  | String c' s' => if Ascii.eqb c c' then Some s' else None
  | EmptyString => None
  end.

Fixpoint strip_prefix (p s : string) : option string :=
  match p, s with
  | EmptyString, _ => Some s
  | String a p', String b s' => if Ascii.eqb a b then strip_prefix p' s' else None
  | String _ _, EmptyString => None
  end.

Definition is_hex (c : ascii) : bool :=
  let n := N_of_ascii c in
  ((48 <=? n) && (n <=? 57) || (65 <=? n) && (n <=? 70)
   || (97 <=? n) && (n <=? 102))%N.

Definition is_simple_escape (c : ascii) : bool :=
  match c with
  | "034" | "092" | "/" | "b" | "f" | "n" | "r" | "t" => true
  | _ => false
  end%char.

(** The inside of a JSON string, up to and including its closing quote;
    yields what follows the string. *)
Fixpoint string_body (s : string) : option string :=
  match s with
  | EmptyString => None
  | String c s' =>
    if Ascii.eqb c "034" then Some s'
    else if Ascii.eqb c "092" then
      match s' with
      | String e s2 =>
        if is_simple_escape e then string_body s2
        else if Ascii.eqb e "u" then
          match s2 with
          | String h1 (String h2 (String h3 (String h4 s6))) =>
            if is_hex h1 && is_hex h2 && is_hex h3 && is_hex h4
            then string_body s6 else None
          | _ => None
          end
        else None
      | EmptyString => None
      end
    else if (N_of_ascii c <? 32)%N then None
    else string_body s'
  end.

Definition json_string (s : string) : option string :=
  match expect "034" s with
  | Some s' => string_body s'
  | None => None
  end.

(** After an array element: a comma and another string, or the closing
    bracket. *)
Fixpoint more_strings (fuel : nat) (s : string) : option string :=
  match fuel with
  | O => None
  | S fuel' =>
    match skip_ws s with
    | String "]" s' => Some s'
    | String "," s' =>
      match json_string (skip_ws s') with
      | Some s2 => more_strings fuel' s2
      | None => None
      end
    | _ => None
    end
  end.

Definition string_array (s : string) : option string :=
  match expect "[" s with
  | None => None
  | Some s1 =>
    match skip_ws s1 with
    | String "]" s2 => Some s2
    | s2 =>
      match json_string s2 with
      | Some s3 => more_strings (String.length s) s3
      | None => None
      end
    end
  end.

Definition well_formed_categories_file (content : string) : bool :=
  match expect "{" (skip_ws content) with
  | None => false
  | Some s1 =>
    match strip_prefix (dquote ++ "categories" ++ dquote) (skip_ws s1) with
    | None => false
    | Some s2 =>
      match expect ":" (skip_ws s2) with
      | None => false
      | Some s3 =>
        match string_array (skip_ws s3) with
        | None => false
        | Some s4 =>
          match expect "}" (skip_ws s4) with
          | Some s5 =>
            match skip_ws s5 with
            | EmptyString => true
            | String _ _ => false
            end
          | None => false
          end
        end
      end
    end
  end.

Section Store.

Set Default Proof Using "Type".

(** The store's floating-point values. *)
Variable real : Type.
Variable radd : real -> real -> real.
Variable rzero : real.
Variable rleb : real -> real -> bool.

(** ** Values handed back to the caller *)

Inductive pyval : Type :=
| PyNone
| PyInt (z : Z)
| PyFloat (x : real)
| PyStr (s : string).

(** A Python dict with string keys, in insertion order. *)
Definition pydict : Type := list (string * pyval).

(** What a tool returns: one dict, or a list of dicts. *)
Inductive response : Type :=
| Obj (d : pydict)
| Arr (l : list pydict).

(** [dict(zip(cols, row))]; the column names are pairwise distinct. *)
Definition dict_zip (cols : list string) (row : list pyval) : pydict :=
  combine cols row.

(** ** The [expenses] table

    [id INTEGER PRIMARY KEY AUTOINCREMENT, date TEXT NOT NULL,
     amount REAL NOT NULL, category TEXT NOT NULL,
     subcategory TEXT DEFAULT '', note TEXT DEFAULT '']:
    the two last columns may hold NULL, the others may not. *)
Record expense : Type := mkExpense {
  id : Z;
  date : string;
  amount : real;
  category : string;
  subcategory : option string;
  note : option string
}.

(** The table: its rows in insertion order, and the AUTOINCREMENT counter
    kept in [sqlite_sequence] (the largest rowid handed out so far). *)
Record table : Type := mkTable {
  rows : list expense;
  seq : Z
}.

Inductive journal_mode : Type := DELETE | WAL.

(** The database file: its journal mode and the [expenses] table, if it
    has been created. *)
Record database : Type := mkDatabase {
  journal : journal_mode;
  expenses : option table
}.

(** A file that does not exist yet opens as an empty database. *)
Definition empty_file : database := mkDatabase DELETE None.

(** ** The storage engine *)

Definition MAX_ROWID : Z := 9223372036854775807.

Definition largest_rowid (l : list expense) : Z :=
  fold_right (fun r m => Z.max (id r) m) 0 l.

(** AUTOINCREMENT: one more than the largest rowid that ever existed in the
    table; none is left once the largest possible rowid has been used. *)
Definition next_rowid (t : table) : option Z :=
  let m := Z.max (largest_rowid (rows t)) (seq t) in
  if m <? MAX_ROWID then Some (m + 1) else None.

(** An open connection: the file as it is on disk, and the pending
    transaction's private copy, if a transaction is open. *)
Record connection : Type := mkConnection {
  disk : database;
  txn : option database
}.

Definition view (c : connection) : database :=
  match txn c with
  | Some w => w
  | None => disk c
  end.

(** Storage code: reads and updates the connection, may raise. *)
Definition io (T : Type) : Type := connection -> result T * connection.

Definition ret {T : Type} (v : T) : io T := fun c => (inr v, c).

Definition raise {T : Type} (msg : string) : io T := fun c => (inl msg, c).

Definition bind {T U : Type} (m : io T) (k : T -> io U) : io U :=
  fun c =>
    match m c with
    | (inl e, c') => (inl e, c')
    | (inr v, c') => k v c'
    end.

Notation "x <- m ;; k" := (bind m (fun x => k))
  (at level 61, m at next level, right associativity).
Notation "m ;;; k" := (bind m (fun _ => k))
  (at level 61, right associativity).

(** The oracle's verdict on one storage call. *)
Definition check (f : faults) (call : api_call) : io unit :=
  match f call with
  | Some msg => raise msg
  | None => ret tt
  end.

Definition connect (f : faults) (db : database) : result connection :=
  match f Connect with
  | Some msg => inl msg
  | None => inr (mkConnection db None)
  end.

(** Closing a connection abandons the pending transaction. *)
Definition close (c : connection) : database := disk c.

Definition commit (f : faults) : io unit :=
  check f Commit ;;;
  fun c => (inr tt, mkConnection (view c) None).

Definition rollback : io unit :=
  fun c => (inr tt, mkConnection (disk c) None).

(** [PRAGMA journal_mode=WAL]: takes effect on the file at once. *)
Definition execute_pragma_wal (f : faults) : io unit :=
  check f ExecPragma ;;;
  fun c => (inr tt, mkConnection (mkDatabase WAL (expenses (disk c))) (txn c)).

Definition create_if_not_exists (db : database) : database :=
  match expenses db with
  | Some _ => db
  | None => mkDatabase (journal db) (Some (mkTable [] 0))
  end.

(** [CREATE TABLE IF NOT EXISTS expenses (...)]: a schema statement, run in
    autocommit mode. *)
Definition execute_create_table (f : faults) : io unit :=
  check f ExecCreate ;;;
  fun c => (inr tt, mkConnection (create_if_not_exists (disk c)) (txn c)).

Definition no_such_table : string := "no such table: expenses".
Definition database_full : string := "database or disk is full".

(** [INSERT INTO expenses (date, amount, category, subcategory, note)
     VALUES (?, ?, ?, ?, ?)]: opens a transaction and appends the row to the
    transaction's copy; yields [lastrowid]. *)
Definition execute_insert (f : faults)
  (date : string) (amount : real) (category : string)
  (subcategory note : string) : io Z :=
  check f ExecInsert ;;;
  fun c =>
    match expenses (view c) with
    | None => (inl no_such_table, c)
    | Some t =>
      match next_rowid t with
      | None => (inl database_full, c)
      | Some i =>
        let r := mkExpense i date amount category
                           (Some subcategory) (Some note) in
        let t' := mkTable (rows t ++ [r]) i in
        (inr i,
         mkConnection (disk c) (Some (mkDatabase (journal (view c)) (Some t'))))
      end
    end.

(** [ORDER BY date DESC, id DESC]. *)
Definition date_desc_id_desc (r1 r2 : expense) : bool :=
  match (date r1 ?= date r2)%string with
  | Gt => true
  | Lt => false
  | Eq => id r2 <=? id r1
  end.

Definition expense_cols : list string :=
  ["id"; "date"; "amount"; "category"; "subcategory"; "note"].

Definition text_or_null (o : option string) : pyval :=
  match o with
  | Some s => PyStr s
  | None => PyNone
  end.

Definition expense_tuple (r : expense) : list pyval :=
  [PyInt (id r); PyStr (date r); PyFloat (amount r); PyStr (category r);
   text_or_null (subcategory r); text_or_null (note r)].

(** [SELECT id, date, amount, category, subcategory, note FROM expenses
     WHERE date BETWEEN ? AND ? ORDER BY date DESC, id DESC], as rows. *)
Definition select_range (l : list expense) (start_date end_date : string)
  : list expense :=
  order_by date_desc_id_desc
    (filter (fun r => between (date r) start_date end_date) l).

(** One output row of the aggregate query. *)
Record group : Type := mkGroup {
  g_category : string;
  total_amount : real;
  count : Z
}.

(** One step of [GROUP BY category] with [SUM(amount)] and [COUNT]: the row
    joins the group of its category, or opens a new one. *)
Fixpoint accumulate (r : expense) (gs : list group) : list group :=
  match gs with
  | [] => [mkGroup (category r) (radd rzero (amount r)) 1]
  | g :: gs' =>
    if (g_category g =? category r)%string
    then mkGroup (g_category g) (radd (total_amount g) (amount r))
                 (count g + 1) :: gs'
    else g :: accumulate r gs'
  end.

Definition group_by_category (l : list expense) : list group :=
  fold_left (fun gs r => accumulate r gs) l [].

(** [ORDER BY total_amount DESC]. *)
Definition total_desc (g1 g2 : group) : bool :=
  rleb (total_amount g2) (total_amount g1).

(** The [WHERE] clause of [summarize]: the date range, and the category
    when the query was extended with [AND category = ?]. *)
Definition summary_where (start_date end_date : string)
  (category_param : option string) (r : expense) : bool :=
  between (date r) start_date end_date &&
  match category_param with
  | Some c => (category r =? c)%string
  | None => true
  end.

Definition select_summary (l : list expense) (start_date end_date : string)
  (category_param : option string) : list group :=
  order_by total_desc
    (group_by_category
       (filter (summary_where start_date end_date category_param) l)).

Definition summary_cols : list string :=
  ["category"; "total_amount"; "count"].

Definition group_tuple (g : group) : list pyval :=
  [PyStr (g_category g); PyFloat (total_amount g); PyInt (count g)].

(** A [SELECT] on the connection: the cursor holds the result rows. *)
Definition execute_select {T : Type} (f : faults)
  (query : list expense -> list T) : io (list T) :=
  check f ExecSelect ;;;
  fun c =>
    match expenses (view c) with
    | None => (inl no_such_table, c)
    | Some t => (inr (query (rows t)), c)
    end.

Definition fetchall {T : Type} (f : faults) (cur : list T) : io (list T) :=
  check f FetchAll ;;; ret cur.

(** ** [init_db] *)

(** The body of [with sqlite3.connect(DB_PATH) as c]: commit when the block
    ends normally, roll back and re-raise when it raises. *)
Definition init_db_block (f : faults) : io unit :=
  fun c =>
    match (execute_pragma_wal f ;;; execute_create_table f) c with
    | (inr _, c') => commit f c'
    | (inl e, c') => (inl e, snd (rollback c'))
    end.

Definition init_ok_line : string := "[INIT] Database initialized successfully".

Definition init_error_line (e : string) : string :=
  "[INIT ERROR] Database init failed: " ++ e.

(** [init_db()]: the printed line, the outcome ([inl] when the exception is
    re-raised) and the database file afterwards. *)
Definition init_db (f : faults) (db : database)
  : string * result unit * database :=
  match connect f db with
  | inl e => (init_error_line e, inl e, db)
  | inr c =>
    match init_db_block f c with
    | (inr _, c') => (init_ok_line, inr tt, close c')
    | (inl e, c') => (init_error_line e, inl e, close c')
    end
  end.

(** ** The tools *)

Definition error_payload (e : string) : response :=
  Obj [("status", PyStr "error"); ("message", PyStr e)].

Definition success_payload (lastrowid : Z) : response :=
  Obj [("status", PyStr "success"); ("id", PyInt lastrowid);
       ("message", PyStr "Expense added successfully")].

(** [async with aiosqlite.connect(DB_PATH) as db: body]: the body runs on a
    fresh connection, which is closed whichever way the body ends. *)
Definition with_connection {T : Type} (f : faults) (db : database)
  (body : io T) : result T * database :=
  match connect f db with
  | inl e => (inl e, db)
  | inr c => let (r, c') := body c in (r, close c')
  end.

(** The [try] block of [add_expense]. *)
Definition add_expense_try (f : faults) (db : database)
  (date : string) (amount : real) (category : string)
  (subcategory note : option string) : result response * database :=
  with_connection f db
    (lastrowid <- execute_insert f date amount category
                     (or_empty subcategory) (or_empty note) ;;
     commit f ;;;
     ret (success_payload lastrowid)).

(** [except Exception as e: return {'status': 'error', 'message': str(e)}]. *)
Definition except_error (r : result response * database)
  : response * database :=
  match r with
  | (inr v, db') => (v, db')
  | (inl e, db') => (error_payload e, db')
  end.

Definition add_expense (f : faults) (db : database)
  (date : string) (amount : real) (category : string)
  (subcategory note : option string) : response * database :=
  except_error (add_expense_try f db date amount category subcategory note).

(** The [try] block of [list_expenses]. *)
Definition list_expenses_try (f : faults) (db : database)
  (start_date end_date : string) : result response * database :=
  with_connection f db
    (cur <- execute_select f
              (fun l => select_range l start_date end_date) ;;
     fetched <- fetchall f cur ;;
     let cols := expense_cols in
     ret (Arr (map (fun row => dict_zip cols (expense_tuple row)) fetched))).

Definition list_expenses (f : faults) (db : database)
  (start_date end_date : string) : response * database :=
  except_error (list_expenses_try f db start_date end_date).

(** The [try] block of [summarize]: the category condition is added to the
    query only when the argument is truthy. *)
Definition summarize_try (f : faults) (db : database)
  (start_date end_date : string) (category : option string)
  : result response * database :=
  with_connection f db
    (let params := if truthy category then category else None in
     cur <- execute_select f
              (fun l => select_summary l start_date end_date params) ;;
     fetched <- fetchall f cur ;;
     let cols := summary_cols in
     ret (Arr (map (fun row => dict_zip cols (group_tuple row)) fetched))).

Definition summarize (f : faults) (db : database)
  (start_date end_date : string) (category : option string)
  : response * database :=
  except_error (summarize_try f db start_date end_date category).


(** ** Vocabulary of the properties *)

(** The dict returned for a row of [expenses], and for a summary row. *)
Definition expense_dict (r : expense) : pydict :=
  dict_zip expense_cols (expense_tuple r).

Definition group_dict (g : group) : pydict :=
  dict_zip summary_cols (group_tuple g).

(** The row stored by [add_expense] under rowid [i]. *)
Definition stored_row (i : Z) (date : string) (amount : real)
  (category : string) (subcategory note : option string) : expense :=
  mkExpense i date amount category
            (Some (or_empty subcategory)) (Some (or_empty note)).

(** Listing order: later dates first, and larger ids first within a date. *)
Definition listed_before (r1 r2 : expense) : Prop :=
  (date r2 <=? date r1)%string = true /\
  (date r1 = date r2 -> id r2 <= id r1).

Definition strictly_listed_before (r1 r2 : expense) : Prop :=
  (date r2 <=? date r1)%string = true /\
  (date r1 = date r2 -> id r2 < id r1).

(** The records of one category, the sum of the amounts of some records (in
    table order) and their number. *)
Definition of_category (c : string) (l : list expense) : list expense :=
  filter (fun r => (category r =? c)%string) l.

Definition sum_amounts (l : list expense) : real :=
  fold_left radd (map amount l) rzero.

Definition count_rows (l : list expense) : Z := Z.of_nat (List.length l).

(** [gs] summarises the records [seen]: one group per category that
    occurs, with the category's sum and count. *)
Definition groups_of (seen : list expense) (gs : list group) : Prop :=
  NoDup (map g_category gs) /\
  (forall c, In c (map g_category gs) <-> In c (map category seen)) /\
  (forall g, In g gs ->
     total_amount g = sum_amounts (of_category (g_category g) seen) /\
     count g = count_rows (of_category (g_category g) seen)).

(** The largest rowid the table has known. *)
Definition high_water (t : table) : Z :=
  Z.max (largest_rowid (rows t)) (seq t).

(** [t'] is [t] with rows appended under larger ids: no row of [t] is
    changed or removed, and a table without duplicate ids stays so. *)
Definition extends (t t' : table) : Prop :=
  (exists added,
     rows t' = rows t ++ added /\
     Forall (fun r => high_water t < id r) added) /\
  high_water t <= high_water t' /\
  (NoDup (map id (rows t)) -> NoDup (map id (rows t'))).

(** A string between double quotes. *)
Definition quoted (x : string) : string := (dquote ++ x ++ dquote)%string.

(** A small store for examples: three records on two days, in two
    categories. *)
Definition sample_table (a1 a2 a3 : real) : table :=
  mkTable
    [mkExpense 1 "2024-02-01" a1 "food" (Some EmptyString) (Some EmptyString);
     mkExpense 2 "2024-02-03" a2 "food" (Some "lunch") (Some EmptyString);
     mkExpense 3 "2024-02-03" a3 "travel" (Some EmptyString) (Some "taxi")]
    3.

Definition sample_db (a1 a2 a3 : real) : database :=
  mkDatabase WAL (Some (sample_table a1 a2 a3)).

(** Largest total first. *)
Definition total_not_below (g1 g2 : group) : Prop :=
  rleb (total_amount g2) (total_amount g1) = true.

(** The store right after the program's start on a new file. *)
Definition fresh_db : database := snd (init_db no_faults empty_file).

(** The operations of the system, and the database file each leaves. *)
Inductive operation : Type :=
| InitDb
| AddExpense (date : string) (amount : real) (category : string)
    (subcategory note : option string)
| ListExpenses (start_date end_date : string)
| Summarize (start_date end_date : string) (category : option string).

Definition run (f : faults) (op : operation) (db : database) : database :=
  match op with
  | InitDb => snd (init_db f db)
  | AddExpense d a c sub n => snd (add_expense f db d a c sub n)
  | ListExpenses s e => snd (list_expenses f db s e)
  | Summarize s e c => snd (summarize f db s e c)
  end.

Fixpoint run_all (ops : list (faults * operation)) (db : database)
  : database :=
  match ops with
  | [] => db
  | (f, op) :: ops' => run_all ops' (run f op db)
  end.

(** [init_db] called [n] times in a row: the outcome of each call, and the
    database file in the end. *)
Fixpoint init_db_times (n : nat) (f : faults) (db : database)
  : list (result unit) * database :=
  match n with
  | O => ([], db)
  | S n' =>
    let '(_, outcome, db1) := init_db f db in
    let (outcomes, db2) := init_db_times n' f db1 in
    (outcome :: outcomes, db2)
  end.

(** The number of records covered by a summary. *)
Definition total_count (gs : list group) : Z :=
  fold_right (fun g n => count g + n) 0 gs.

(** Rowids [1 .. n] in insertion order, with the counter at [n]. *)
Definition consecutive_ids (t : table) : Prop :=
  map id (rows t) = map Z.of_nat (List.seq 1 (List.length (rows t))) /\
  seq t = Z.of_nat (List.length (rows t)).

(** Rows whose optional columns hold text, not NULL. *)
Definition no_nulls (t : table) : Prop :=
  Forall (fun r => subcategory r <> None /\ note r <> None) (rows t).

(** * Properties *)

(** Propositional reasoning that leaves the parameters of the section
    alone. *)
Ltac prop :=
  try clear rleb; try clear rzero; try clear radd; try clear real; tauto.

(** ** Insertion sort *)

Section Ordering.

Context {T : Type} (before : T -> T -> bool).

Lemma insert_by_perm (x : T) (l : list T) :
  Permutation (insert_by before x l) (x :: l).
Proof.
  induction l as [|y l IH]; simpl.
  - apply Permutation_refl.
  - destruct (before x y).
    + apply Permutation_refl.
    + eapply perm_trans; [apply perm_skip, IH | apply perm_swap].
Qed.

Lemma order_by_perm (l : list T) : Permutation (order_by before l) l.
Proof.
  induction l as [|x l IH]; simpl.
  - apply perm_nil.
  - eapply perm_trans; [apply insert_by_perm | apply perm_skip, IH].
Qed.

Lemma order_by_in (x : T) (l : list T) : In x (order_by before l) <-> In x l.
Proof.
  split; apply Permutation_in;
    [apply order_by_perm | apply Permutation_sym, order_by_perm].
Qed.

Lemma order_by_nil_iff (l : list T) : order_by before l = [] <-> l = [].
Proof.
  split; intros H.
  - apply Permutation_nil. rewrite <- H. apply order_by_perm.
  - subst l. reflexivity.
Qed.

Hypothesis before_total : forall x y, before x y = true \/ before y x = true.
Hypothesis before_trans :
  forall x y z, before x y = true -> before y z = true -> before x z = true.

Let precedes (x y : T) : Prop := before x y = true.

Lemma insert_by_sorted (x : T) (l : list T) :
  StronglySorted precedes l -> StronglySorted precedes (insert_by before x l).
Proof using before_total before_trans.
  induction 1 as [|y l Hs IH Hall]; simpl.
  - constructor; constructor.
  - destruct (before x y) eqn:Hxy.
    + constructor.
      * constructor; assumption.
      * constructor; [exact Hxy|].
        eapply Forall_impl; [|exact Hall].
        intros z Hyz. exact (before_trans _ _ _ Hxy Hyz).
    + constructor; [exact IH|].
      assert (Hyx : before y x = true).
      { destruct (before_total x y) as [E|E]; [congruence | exact E]. }
      eapply Permutation_Forall.
      * apply Permutation_sym, insert_by_perm.
      * constructor; assumption.
Qed.

Lemma order_by_sorted (l : list T) : StronglySorted precedes (order_by before l).
Proof using before_total before_trans.
  induction l as [|x l IH]; simpl.
  - constructor.
  - apply insert_by_sorted, IH.
Qed.

End Ordering.

(** ** Lists *)

Lemma StronglySorted_impl_rel {T : Type} (R1 R2 : T -> T -> Prop)
  (l : list T) :
  (forall x y, R1 x y -> R2 x y) ->
  StronglySorted R1 l -> StronglySorted R2 l.
Proof.
  intros Himp. induction 1 as [|x l Hs IH Hall]; constructor.
  - exact IH.
  - eapply Forall_impl; [|exact Hall]. intros y. apply Himp.
Qed.

Lemma NoDup_map_filter {T U : Type} (g : T -> U) (p : T -> bool)
  (l : list T) :
  NoDup (map g l) -> NoDup (map g (filter p l)).
Proof.
  induction l as [|x l IH]; simpl; intros H; [constructor|].
  inversion H as [|? ? Hnotin Hnd]; subst.
  destruct (p x); simpl; [constructor|]; auto.
  intros Hin. apply Hnotin.
  apply in_map_iff in Hin. destruct Hin as (y & Hy & Hin).
  apply in_map_iff. exists y. split; [exact Hy|].
  apply filter_In in Hin. destruct Hin; assumption.
Qed.

(** In a sorted list without two elements of the same key, the order between
    elements of equal rank is strict. *)
Lemma StronglySorted_strict {T : Type} (key : T -> Z) (R1 R2 : T -> T -> Prop)
  (l : list T) :
  (forall x y, R1 x y -> key x <> key y -> R2 x y) ->
  NoDup (map key l) ->
  StronglySorted R1 l -> StronglySorted R2 l.
Proof.
  intros Himp Hnd Hs. induction Hs as [|x l Hs IH Hall]; constructor.
  - apply IH. simpl in Hnd. inversion Hnd; assumption.
  - simpl in Hnd. inversion Hnd as [|? ? Hnotin _]; subst.
    apply Forall_forall. intros y Hy.
    apply Himp.
    + rewrite Forall_forall in Hall. apply Hall, Hy.
    + intros Heq. apply Hnotin. rewrite Heq. apply in_map, Hy.
Qed.

(** ** Bytewise order of strings *)

Lemma string_compare_refl (s : string) : (s ?= s)%string = Eq.
Proof.
  induction s as [|c s IH]; simpl; [reflexivity|].
  unfold Ascii.compare. rewrite N.compare_refl. exact IH.
Qed.

Lemma string_compare_lt_trans (s1 s2 s3 : string) :
  (s1 ?= s2)%string = Lt -> (s2 ?= s3)%string = Lt -> (s1 ?= s3)%string = Lt.
Proof.
  revert s2 s3.
  induction s1 as [|a s1 IH]; intros [|b s2] [|c s3]; simpl;
    try discriminate; try reflexivity.
  unfold Ascii.compare.
  destruct (N.compare_spec (N_of_ascii a) (N_of_ascii b)) as [Eab|Lab|Gab];
    try discriminate;
    destruct (N.compare_spec (N_of_ascii b) (N_of_ascii c)) as [Ebc|Lbc|Gbc];
    try discriminate; intros H1 H2.
  - rewrite Eab, Ebc, N.compare_refl. eapply IH; eassumption.
  - rewrite Eab. apply N.compare_lt_iff in Lbc. rewrite Lbc. reflexivity.
  - rewrite <- Ebc. apply N.compare_lt_iff in Lab. rewrite Lab. reflexivity.
  - assert (L : (N_of_ascii a < N_of_ascii c)%N) by lia.
    apply N.compare_lt_iff in L. rewrite L. reflexivity.
Qed.

Lemma string_compare_gt_trans (s1 s2 s3 : string) :
  (s1 ?= s2)%string = Gt -> (s2 ?= s3)%string = Gt -> (s1 ?= s3)%string = Gt.
Proof.
  intros H1 H2.
  rewrite String.compare_antisym in H1, H2 |- *.
  destruct (s2 ?= s1)%string eqn:E1; try discriminate.
  destruct (s3 ?= s2)%string eqn:E2; try discriminate.
  rewrite (string_compare_lt_trans _ _ _ E2 E1). reflexivity.
Qed.

Lemma string_leb_refl (s : string) : (s <=? s)%string = true.
Proof. unfold String.leb. rewrite string_compare_refl. reflexivity. Qed.

Lemma string_leb_gt (s1 s2 : string) :
  (s1 ?= s2)%string = Gt -> (s2 <=? s1)%string = true.
Proof.
  intros H. unfold String.leb. rewrite String.compare_antisym, H. reflexivity.
Qed.

(** ** The handlers, call by call *)

Ltac unfold_storage :=
  cbv beta iota zeta delta
    [with_connection connect close commit rollback bind check
     execute_insert execute_select execute_pragma_wal execute_create_table
     fetchall raise ret view except_error no_faults disk txn];
  simpl.

Lemma init_db_no_faults (db : database) :
  init_db no_faults db =
  (init_ok_line, inr tt, mkDatabase WAL (expenses (create_if_not_exists db))).
Proof.
  destruct db as [j [t|]];
    unfold init_db, init_db_block; unfold_storage; reflexivity.
Qed.

Lemma add_expense_success (db : database) (t : table) (i : Z)
  (d : string) (a : real) (c : string) (sub n : option string) :
  expenses db = Some t ->
  next_rowid t = Some i ->
  add_expense no_faults db d a c sub n =
  (success_payload i,
   mkDatabase (journal db)
     (Some (mkTable (rows t ++ [stored_row i d a c sub n]) i))).
Proof.
  intros Ht Hi. unfold add_expense, add_expense_try. unfold_storage.
  rewrite Ht, Hi. reflexivity.
Qed.

(** Whatever the faults, [add_expense] either leaves the file as it was and
    reports an error, or appends exactly the new row under the next rowid. *)
Lemma add_expense_cases (f : faults) (db : database)
  (d : string) (a : real) (c : string) (sub n : option string) :
  (exists e, add_expense f db d a c sub n = (error_payload e, db)) \/
  (exists t i,
     expenses db = Some t /\ next_rowid t = Some i /\
     add_expense f db d a c sub n =
     (success_payload i,
      mkDatabase (journal db)
        (Some (mkTable (rows t ++ [stored_row i d a c sub n]) i)))).
Proof.
  unfold add_expense, add_expense_try. unfold_storage.
  destruct (f Connect) as [e|]; [left; eexists; reflexivity|].
  destruct (f ExecInsert) as [e|]; simpl; [left; eexists; reflexivity|].
  destruct (expenses db) as [t|] eqn:Ht; simpl;
    [|left; eexists; reflexivity].
  destruct (next_rowid t) as [i|] eqn:Hi; simpl;
    [|left; eexists; reflexivity].
  destruct (f Commit) as [e|]; simpl; [left; eexists; reflexivity|].
  right. exists t, i. repeat split; auto.
Qed.

Lemma error_is_not_success (e : string) (i : Z) :
  error_payload e <> success_payload i.
Proof. unfold error_payload, success_payload. discriminate. Qed.

Lemma add_expense_inv (f : faults) (db db' : database) (i : Z)
  (d : string) (a : real) (c : string) (sub n : option string) :
  add_expense f db d a c sub n = (success_payload i, db') ->
  exists t,
    expenses db = Some t /\ next_rowid t = Some i /\
    db' = mkDatabase (journal db)
            (Some (mkTable (rows t ++ [stored_row i d a c sub n]) i)).
Proof.
  intros H.
  destruct (add_expense_cases f db d a c sub n)
    as [[e He]|(t & j & Ht & Hj & Hs)].
  - rewrite He in H. inversion H as [[H1 H2]].
  - rewrite Hs in H. inversion H; subst. exists t. auto.
Qed.

Lemma list_expenses_ok (db : database) (t : table) (s e : string) :
  expenses db = Some t ->
  list_expenses no_faults db s e =
  (Arr (map expense_dict (select_range (rows t) s e)), db).
Proof.
  intros Ht. unfold list_expenses, list_expenses_try. unfold_storage.
  rewrite Ht. reflexivity.
Qed.

Lemma list_expenses_store (f : faults) (db : database) (s e : string) :
  snd (list_expenses f db s e) = db.
Proof.
  unfold list_expenses, list_expenses_try. unfold_storage.
  destruct (f Connect); [reflexivity|].
  destruct (f ExecSelect); simpl; [reflexivity|].
  destruct (expenses db); simpl; [|reflexivity].
  destruct (f FetchAll); reflexivity.
Qed.

Lemma summarize_ok (db : database) (t : table) (s e : string)
  (c : option string) :
  expenses db = Some t ->
  summarize no_faults db s e c =
  (Arr (map group_dict
          (select_summary (rows t) s e (if truthy c then c else None))),
   db).
Proof.
  intros Ht. unfold summarize, summarize_try. unfold_storage.
  rewrite Ht. reflexivity.
Qed.

Lemma summarize_store (f : faults) (db : database) (s e : string)
  (c : option string) :
  snd (summarize f db s e c) = db.
Proof.
  unfold summarize, summarize_try. unfold_storage.
  destruct (f Connect); [reflexivity|].
  destruct (f ExecSelect); simpl; [reflexivity|].
  destruct (expenses db); simpl; [|reflexivity].
  destruct (f FetchAll); reflexivity.
Qed.

(** ** The listing order *)

Lemma date_desc_id_desc_total (r1 r2 : expense) :
  date_desc_id_desc r1 r2 = true \/ date_desc_id_desc r2 r1 = true.
Proof.
  unfold date_desc_id_desc.
  rewrite (String.compare_antisym (date r2) (date r1)).
  destruct (date r1 ?= date r2)%string; simpl; auto.
  destruct (Z.leb_spec (id r2) (id r1)); [left; reflexivity|right].
  apply Z.leb_le. lia.
Qed.

Lemma date_desc_id_desc_trans (r1 r2 r3 : expense) :
  date_desc_id_desc r1 r2 = true -> date_desc_id_desc r2 r3 = true ->
  date_desc_id_desc r1 r3 = true.
Proof.
  unfold date_desc_id_desc.
  destruct (date r1 ?= date r2)%string eqn:E12; try discriminate;
    destruct (date r2 ?= date r3)%string eqn:E23; try discriminate;
    intros H1 H2.
  - apply String.compare_eq_iff in E12. rewrite E12, E23.
    apply Z.leb_le in H1, H2. apply Z.leb_le. lia.
  - apply String.compare_eq_iff in E12. rewrite E12, E23. reflexivity.
  - apply String.compare_eq_iff in E23. rewrite <- E23, E12. reflexivity.
  - rewrite (string_compare_gt_trans _ _ _ E12 E23). reflexivity.
Qed.

Lemma date_desc_id_desc_listed (r1 r2 : expense) :
  date_desc_id_desc r1 r2 = true -> listed_before r1 r2.
Proof.
  unfold date_desc_id_desc, listed_before.
  destruct (date r1 ?= date r2)%string eqn:E; try discriminate; intros H.
  - apply String.compare_eq_iff in E. rewrite E. split.
    + apply string_leb_refl.
    + intros _. apply Z.leb_le, H.
  - split.
    + apply string_leb_gt, E.
    + intros Heq. rewrite Heq, string_compare_refl in E. discriminate.
Qed.

Lemma select_range_perm (l : list expense) (s e : string) :
  Permutation (select_range l s e)
    (filter (fun r => between (date r) s e) l).
Proof. apply order_by_perm. Qed.

Lemma select_range_listed (l : list expense) (s e : string) :
  StronglySorted listed_before (select_range l s e).
Proof.
  unfold select_range.
  eapply StronglySorted_impl_rel;
    [|apply order_by_sorted;
      [apply date_desc_id_desc_total|apply date_desc_id_desc_trans]].
  intros r1 r2. apply date_desc_id_desc_listed.
Qed.

Lemma or_empty_default (o : option string) :
  or_empty o = match o with Some x => x | None => EmptyString end.
Proof. destruct o as [[|c x]|]; reflexivity. Qed.

Lemma expense_dict_injective (r1 r2 : expense) :
  expense_dict r1 = expense_dict r2 -> r1 = r2.
Proof.
  destruct r1 as [i1 d1 a1 c1 s1 n1], r2 as [i2 d2 a2 c2 s2 n2].
  unfold expense_dict, dict_zip, expense_cols, expense_tuple. simpl.
  intros H. inversion H as [[Hi Hd Ha Hc Hs Hn]].
  destruct s1, s2, n1, n2; simpl in Hs, Hn; inversion Hs; inversion Hn;
    reflexivity.
Qed.

Lemma fresh_db_table : expenses fresh_db = Some (mkTable [] 0).
Proof. unfold fresh_db. rewrite init_db_no_faults. reflexivity. Qed.

(** ** Grouping *)

Lemma of_category_snoc (c : string) (seen : list expense) (r : expense) :
  of_category c (seen ++ [r]) =
  if (category r =? c)%string
  then of_category c seen ++ [r] else of_category c seen.
Proof.
  unfold of_category. rewrite filter_app. simpl.
  destruct (category r =? c)%string; [reflexivity|apply app_nil_r].
Qed.

Lemma of_category_absent (c : string) (seen : list expense) :
  ~ In c (map category seen) -> of_category c seen = [].
Proof.
  unfold of_category. induction seen as [|x seen IH]; simpl; intros H;
    [reflexivity|].
  destruct (String.eqb_spec (category x) c) as [E|E]; [prop|].
  apply IH. prop.
Qed.

Lemma sum_amounts_snoc (l : list expense) (r : expense) :
  sum_amounts (l ++ [r]) = radd (sum_amounts l) (amount r).
Proof. unfold sum_amounts. rewrite map_app, fold_left_app. reflexivity. Qed.

Lemma count_rows_snoc (l : list expense) (r : expense) :
  count_rows (l ++ [r]) = count_rows l + 1.
Proof. unfold count_rows. rewrite length_app. simpl. lia. Qed.

Lemma accumulate_categories (r : expense) (gs : list group) :
  map g_category (accumulate r gs) =
  if in_dec string_dec (category r) (map g_category gs)
  then map g_category gs
  else map g_category gs ++ [category r].
Proof.
  induction gs as [|g gs IH]; simpl; [reflexivity|].
  destruct (String.eqb_spec (g_category g) (category r)) as [E|E]; simpl.
  - destruct (string_dec (g_category g) (category r)); [reflexivity|].
    contradiction.
  - rewrite IH.
    destruct (string_dec (g_category g) (category r)); [contradiction|].
    destruct (in_dec string_dec (category r) (map g_category gs));
      reflexivity.
Qed.

Lemma accumulate_in (r : expense) (gs : list group) (g' : group) :
  NoDup (map g_category gs) ->
  In g' (accumulate r gs) ->
  (In g' gs /\ g_category g' <> category r) \/
  (exists g, In g gs /\ g_category g = category r /\
             g' = mkGroup (g_category g)
                    (radd (total_amount g) (amount r)) (count g + 1)) \/
  (~ In (category r) (map g_category gs) /\
   g' = mkGroup (category r) (radd rzero (amount r)) 1).
Proof.
  induction gs as [|g gs IH]; simpl; intros Hnd Hin.
  - destruct Hin as [<-|[]]. right; right. split; [prop|reflexivity].
  - inversion Hnd as [|? ? Hnotin Hnd']; subst.
    destruct (String.eqb_spec (g_category g) (category r)) as [E|E].
    + destruct Hin as [<-|Hin].
      * right; left. exists g. auto.
      * left. split; [right; exact Hin|].
        intros Heq. apply Hnotin. rewrite E, <- Heq. apply in_map, Hin.
    + destruct Hin as [<-|Hin].
      * left. split; [left; reflexivity|exact E].
      * destruct (IH Hnd' Hin) as [[H1 H2]|[(g0 & H1 & H2 & H3)|[H1 H2]]].
        -- left. split; [right; exact H1|exact H2].
        -- right; left. exists g0. auto.
        -- right; right. split; [|exact H2].
           intros [H|H]; [exact (E H)|exact (H1 H)].
Qed.

Lemma accumulate_groups (seen : list expense) (gs : list group)
  (r : expense) :
  groups_of seen gs -> groups_of (seen ++ [r]) (accumulate r gs).
Proof.
  intros (Hnd & Hcat & Hsum). split; [|split].
  - rewrite accumulate_categories.
    destruct (in_dec string_dec (category r) (map g_category gs)) as [H|H];
      [exact Hnd|].
    apply NoDup_app; [exact Hnd|repeat constructor; simpl; prop|].
    intros c Hc [<-|[]]. exact (H Hc).
  - intros c.
    rewrite accumulate_categories, map_app, in_app_iff. simpl.
    destruct (in_dec string_dec (category r) (map g_category gs)) as [H|H].
    + rewrite Hcat. split; [prop|].
      intros [Hc|[<-|[]]]; [exact Hc|apply Hcat, H].
    + rewrite in_app_iff, Hcat. simpl. prop.
  - intros g Hg.
    destruct (accumulate_in r gs g Hnd Hg)
      as [[H1 H2]|[(g0 & H1 & H2 & ->)|[H1 ->]]]; simpl;
      rewrite of_category_snoc.
    + destruct (String.eqb_spec (category r) (g_category g)) as [E|E];
        [congruence|]. apply Hsum, H1.
    + rewrite H2, String.eqb_refl, sum_amounts_snoc, count_rows_snoc.
      rewrite <- H2. destruct (Hsum g0 H1) as [-> ->]. split; reflexivity.
    + rewrite String.eqb_refl, sum_amounts_snoc, count_rows_snoc.
      rewrite of_category_absent; [split; reflexivity|].
      rewrite <- Hcat. exact H1.
Qed.

Lemma group_by_category_groups (l : list expense) :
  groups_of l (group_by_category l).
Proof.
  unfold group_by_category.
  assert (G : forall seen gs,
             groups_of seen gs ->
             groups_of (seen ++ l)
               (fold_left (fun gs r => accumulate r gs) l gs)).
  { induction l as [|r l IH]; simpl; intros seen gs H.
    - rewrite app_nil_r. exact H.
    - replace (seen ++ r :: l) with ((seen ++ [r]) ++ l)
        by (rewrite <- app_assoc; reflexivity).
      apply IH, accumulate_groups, H. }
  apply (G [] []). split; [constructor|]. split.
  - intros c. simpl. prop.
  - intros g [].
Qed.

Lemma groups_of_perm (seen : list expense) (gs gs' : list group) :
  Permutation gs gs' -> groups_of seen gs -> groups_of seen gs'.
Proof.
  intros Hp (Hnd & Hcat & Hsum). split; [|split].
  - eapply Permutation_NoDup; [apply Permutation_map, Hp|exact Hnd].
  - intros c. rewrite <- Hcat. split; apply Permutation_in;
      [apply Permutation_sym|]; apply Permutation_map, Hp.
  - intros g Hg. apply Hsum.
    eapply Permutation_in; [apply Permutation_sym, Hp|exact Hg].
Qed.

(** ** Rowids *)

Lemma largest_rowid_nonneg (l : list expense) : 0 <= largest_rowid l.
Proof. induction l as [|r l IH]; simpl; lia. Qed.

Lemma largest_rowid_ge (l : list expense) (r : expense) :
  In r l -> id r <= largest_rowid l.
Proof.
  induction l as [|x l IH]; simpl; [prop|].
  intros [->|H]; [|specialize (IH H)]; lia.
Qed.

Lemma largest_rowid_app (l l' : list expense) :
  largest_rowid (l ++ l') = Z.max (largest_rowid l) (largest_rowid l').
Proof.
  induction l as [|x l IH]; simpl.
  - pose proof (largest_rowid_nonneg l'). lia.
  - fold (largest_rowid (l ++ l')). rewrite IH. lia.
Qed.

Lemma next_rowid_spec (t : table) (i : Z) :
  next_rowid t = Some i -> i = high_water t + 1.
Proof.
  unfold next_rowid, high_water.
  destruct (Z.max (largest_rowid (rows t)) (seq t) <? MAX_ROWID);
    [|discriminate].
  intros H. inversion H. reflexivity.
Qed.

Lemma below_high_water (t : table) :
  Forall (fun r => id r <= high_water t) (rows t).
Proof.
  apply Forall_forall. intros r Hr.
  pose proof (largest_rowid_ge _ _ Hr). unfold high_water. lia.
Qed.

Lemma extends_refl (t : table) : extends t t.
Proof.
  split; [|split; [lia|prop]].
  exists []. rewrite app_nil_r. split; [reflexivity|constructor].
Qed.

Lemma extends_trans (t1 t2 t3 : table) :
  extends t1 t2 -> extends t2 t3 -> extends t1 t3.
Proof.
  intros ((a1 & R1 & F1) & H1 & N1) ((a2 & R2 & F2) & H2 & N2).
  split; [|split; [lia|prop]].
  exists (a1 ++ a2). split.
  - rewrite R2, R1, app_assoc. reflexivity.
  - apply Forall_app. split; [exact F1|].
    eapply Forall_impl; [|exact F2]. simpl. intros r Hr. lia.
Qed.

(** Appending a row under the next rowid. *)
Lemma insert_extends (t : table) (i : Z) (r : expense) :
  next_rowid t = Some i -> id r = i ->
  extends t (mkTable (rows t ++ [r]) i).
Proof.
  intros Hi Hr. apply next_rowid_spec in Hi.
  split; [|split]; simpl.
  - exists [r]. split; [reflexivity|]. repeat constructor. lia.
  - unfold high_water at 2. simpl. rewrite largest_rowid_app. simpl. lia.
  - intros Hnd. rewrite map_app. simpl.
    apply NoDup_app; [exact Hnd|repeat constructor; simpl; prop|].
    intros x Hx [<-|[]].
    apply in_map_iff in Hx. destruct Hx as (r0 & Heq & Hin).
    pose proof (below_high_water t) as Hb.
    rewrite Forall_forall in Hb. specialize (Hb r0 Hin). lia.
Qed.

Lemma init_db_keeps_table (f : faults) (db : database) (t : table) :
  expenses db = Some t -> expenses (snd (init_db f db)) = Some t.
Proof.
  intros Ht. unfold init_db, init_db_block. unfold_storage.
  unfold create_if_not_exists.
  destruct (f Connect); simpl; [exact Ht|].
  destruct (f ExecPragma); simpl; [exact Ht|].
  destruct (f ExecCreate); simpl; [exact Ht|].
  rewrite Ht.
  destruct (f Commit); simpl; reflexivity.
Qed.

Lemma run_extends (f : faults) (op : operation) (db : database)
  (t : table) :
  expenses db = Some t ->
  exists t', expenses (run f op db) = Some t' /\ extends t t'.
Proof.
  intros Ht. destruct op as [|d a c sub n|s e|s e c]; simpl.
  - exists t. split; [apply init_db_keeps_table, Ht|apply extends_refl].
  - destruct (add_expense_cases f db d a c sub n)
      as [[e ->]|(t0 & i & Ht0 & Hi & ->)]; simpl.
    + exists t. split; [exact Ht|apply extends_refl].
    + rewrite Ht in Ht0. inversion Ht0; subst t0.
      eexists. split; [reflexivity|].
      apply insert_extends; [exact Hi|reflexivity].
  - rewrite list_expenses_store. exists t.
    split; [exact Ht|apply extends_refl].
  - rewrite summarize_store. exists t.
    split; [exact Ht|apply extends_refl].
Qed.

Lemma run_all_extends (ops : list (faults * operation)) (db : database)
  (t : table) :
  expenses db = Some t ->
  exists t', expenses (run_all ops db) = Some t' /\ extends t t'.
Proof.
  revert db t. induction ops as [|[f op] ops IH]; simpl; intros db t Ht.
  - exists t. split; [exact Ht|apply extends_refl].
  - destruct (run_extends f op db t Ht) as (t1 & Ht1 & E1).
    destruct (IH _ _ Ht1) as (t2 & Ht2 & E2).
    exists t2. split; [exact Ht2|exact (extends_trans _ _ _ E1 E2)].
Qed.

Lemma create_if_not_exists_again (j : journal_mode) (db : database) :
  expenses
    (create_if_not_exists
       (mkDatabase j (expenses (create_if_not_exists db)))) =
  expenses (create_if_not_exists db).
Proof. destruct db as [j0 [t|]]; reflexivity. Qed.

Lemma init_db_times_no_faults (n : nat) (db : database) :
  init_db_times (S n) no_faults db =
  (repeat (inr tt) (S n), snd (init_db no_faults db)).
Proof.
  revert db. induction n as [|n IH]; intros db.
  - cbn [init_db_times repeat]. rewrite init_db_no_faults. reflexivity.
  - change (init_db_times (S (S n)) no_faults db)
      with (let '(_, outcome, db1) := init_db no_faults db in
            let (outcomes, db2) := init_db_times (S n) no_faults db1 in
            (outcome :: outcomes, db2)).
    rewrite init_db_no_faults. cbv beta iota zeta.
    rewrite IH, init_db_no_faults. cbn [snd repeat].
    rewrite create_if_not_exists_again. reflexivity.
Qed.

(** * The claims of the specification *)

(** C1. Insert round-trip: on the empty store, adding
    [{date: 2024-01-05, amount, category: food}] succeeds, and listing the
    range [2024-01-01 .. 2024-01-31] then returns exactly one record, with
    empty-string subcategory and note and the id that the insert returned.
    In general a successful insert stores a row whose optional fields are
    strings (the empty string when absent, never NULL), and every listing
    whose range lexically contains the row's date returns it. *)
Theorem add_then_list_roundtrip :
  (forall a : real,
     exists db1,
       add_expense no_faults fresh_db "2024-01-05" a "food" None None =
       (success_payload 1, db1) /\
       list_expenses no_faults db1 "2024-01-01" "2024-01-31" =
       (Arr [[("id", PyInt 1); ("date", PyStr "2024-01-05");
              ("amount", PyFloat a); ("category", PyStr "food");
              ("subcategory", PyStr EmptyString);
              ("note", PyStr EmptyString)]], db1)) /\
  (forall (f : faults) (db db' : database) (i : Z)
          (d : string) (a : real) (c : string) (sub n : option string),
     add_expense f db d a c sub n = (success_payload i, db') ->
     exists t' r,
       expenses db' = Some t' /\ In r (rows t') /\
       id r = i /\ date r = d /\ amount r = a /\ category r = c /\
       subcategory r =
         Some (match sub with Some x => x | None => EmptyString end) /\
       note r = Some (match n with Some x => x | None => EmptyString end) /\
       forall s e,
         (s <=? d)%string = true -> (d <=? e)%string = true ->
         exists l,
           list_expenses no_faults db' s e = (Arr l, db') /\
           In (expense_dict r) l).
Proof.
  split.
  - intros a. eexists. split.
    + apply add_expense_success with (t := mkTable [] 0).
      * apply fresh_db_table.
      * reflexivity.
    + erewrite list_expenses_ok by reflexivity. reflexivity.
  - intros f db db' i d a c sub n H.
    apply add_expense_inv in H. destruct H as (t & Ht & Hi & ->).
    eexists. exists (stored_row i d a c sub n). simpl.
    split; [reflexivity|]. split; [apply in_or_app; right; left; reflexivity|].
    rewrite !or_empty_default.
    repeat (split; [reflexivity|]).
    intros s e Hs He. eexists. split.
    + apply list_expenses_ok. reflexivity.
    + apply in_map. unfold select_range. apply order_by_in.
      apply filter_In. simpl. split.
      * apply in_or_app; right; left; reflexivity.
      * unfold between. rewrite Hs, He. reflexivity.
Qed.

(** C2. For every store and every [start_date], [end_date],
    [list_expenses] returns exactly the records whose date lies between the
    two bounds in the bytewise order of strings, bounds included; when no
    record does, it returns the empty list and not an error. *)
Theorem list_expenses_selects_range (db : database) (t : table)
  (s e : string) :
  expenses db = Some t ->
  exists listed,
    list_expenses no_faults db s e = (Arr (map expense_dict listed), db) /\
    Permutation listed (filter (fun r => between (date r) s e) (rows t)) /\
    (forall r, In r listed <->
               In r (rows t) /\
               (s <=? date r)%string = true /\
               (date r <=? e)%string = true) /\
    ((forall r, In r (rows t) -> between (date r) s e = false) ->
     list_expenses no_faults db s e = (Arr [], db)).
Proof.
  intros Ht. exists (select_range (rows t) s e).
  split; [apply list_expenses_ok, Ht|].
  split; [apply select_range_perm|]. split.
  - intros r. unfold select_range. rewrite order_by_in, filter_In.
    unfold between. rewrite andb_true_iff. prop.
  - intros Hnone. rewrite (list_expenses_ok _ _ _ _ Ht).
    replace (select_range (rows t) s e) with (@nil expense); [reflexivity|].
    symmetry. apply order_by_nil_iff.
    induction (rows t) as [|r l IH]; simpl; [reflexivity|].
    rewrite (Hnone r (or_introl eq_refl)).
    apply IH. intros r' Hr'. apply Hnone. right. exact Hr'.
Qed.

(** C3. For every store and range, the records returned by [list_expenses]
    are in descending order of date, and two records of the same date are
    in descending order of id; ids being unique in the table, that order
    is strict. *)
Theorem list_expenses_sorted (db : database) (t : table) (s e : string) :
  expenses db = Some t ->
  exists listed,
    list_expenses no_faults db s e = (Arr (map expense_dict listed), db) /\
    StronglySorted listed_before listed /\
    (NoDup (map id (rows t)) ->
     StronglySorted strictly_listed_before listed).
Proof.
  intros Ht. exists (select_range (rows t) s e).
  split; [apply list_expenses_ok, Ht|].
  split; [apply select_range_listed|].
  intros Hnd.
  apply StronglySorted_strict with (key := id) (R1 := listed_before).
  - intros r1 r2 [Hd Hi] Hne. split; [exact Hd|].
    intros Heq. specialize (Hi Heq). lia.
  - eapply Permutation_NoDup.
    + apply Permutation_map, Permutation_sym, select_range_perm.
    + apply NoDup_map_filter, Hnd.
  - apply select_range_listed.
Qed.

(** C4 (amended). For every store, [summarize] returns one
    [{category, total_amount, count}] object per distinct category among the
    records of the inclusive lexical date range, restricted to the records
    of the given category when the filter is a non-empty string;
    [total_amount] is the sum of those records' amounts and [count] their
    number; the objects are ordered by [total_amount], largest first; when
    no record is selected the result is the empty list, not an error.
    The order of REAL values is assumed total and transitive. *)
Theorem summarize_groups_by_category
  (rleb_total : forall x y, rleb x y = true \/ rleb y x = true)
  (rleb_trans : forall x y z,
      rleb x y = true -> rleb y z = true -> rleb x z = true)
  (db : database) (t : table) (s e : string) (cat : option string) :
  expenses db = Some t ->
  let selected :=
    filter (fun r =>
              between (date r) s e &&
              match cat with
              | Some (String _ _ as c) => (category r =? c)%string
              | _ => true
              end) (rows t) in
  exists gs,
    summarize no_faults db s e cat = (Arr (map group_dict gs), db) /\
    NoDup (map g_category gs) /\
    (forall c, In c (map g_category gs) <->
               exists r, In r selected /\ category r = c) /\
    (forall g, In g gs ->
       total_amount g = sum_amounts (of_category (g_category g) selected) /\
       count g = count_rows (of_category (g_category g) selected)) /\
    StronglySorted total_not_below gs /\
    (selected = [] -> gs = []).
Proof.
  intros Ht selected.
  exists (select_summary (rows t) s e (if truthy cat then cat else None)).
  split; [apply summarize_ok, Ht|].
  assert (Hsel : filter (summary_where s e (if truthy cat then cat else None))
                   (rows t) = selected).
  { apply filter_ext. intros r. unfold summary_where.
    destruct cat as [[|ch c]|]; reflexivity. }
  unfold select_summary. rewrite Hsel.
  destruct (groups_of_perm selected _ _
              (Permutation_sym (order_by_perm total_desc _))
              (group_by_category_groups selected)) as (Hnd & Hcat & Hsum).
  split; [exact Hnd|]. split; [|split; [exact Hsum|split]].
  - intros c. rewrite Hcat, in_map_iff. split.
    + intros (r & Hr & Hin). exists r. auto.
    + intros (r & Hin & Hr). exists r. auto.
  - apply order_by_sorted.
    + intros g1 g2. apply rleb_total.
    + intros g1 g2 g3 H12 H23. exact (rleb_trans _ _ _ H23 H12).
  - intros Hnil. rewrite Hnil. reflexivity.
Qed.

(** C5. When the storage layer fails inside [add_expense], [list_expenses]
    or [summarize], the tool returns [{status: error, message: str(e)}]
    carrying the text of the underlying error, instead of raising; the
    message is non-empty, the engine's descriptions being non-empty; and
    the database file is left as it was, so that a failed insert stores
    nothing. *)
Theorem storage_failure_is_error_payload (f : faults) (db : database) :
  (forall call msg, f call = Some msg -> msg <> EmptyString) ->
  (forall d a c sub n err db1,
     add_expense_try f db d a c sub n = (inl err, db1) ->
     add_expense f db d a c sub n =
       (Obj [("status", PyStr "error"); ("message", PyStr err)], db) /\
     err <> EmptyString) /\
  (forall s e err db1,
     list_expenses_try f db s e = (inl err, db1) ->
     list_expenses f db s e =
       (Obj [("status", PyStr "error"); ("message", PyStr err)], db) /\
     err <> EmptyString) /\
  (forall s e cat err db1,
     summarize_try f db s e cat = (inl err, db1) ->
     summarize f db s e cat =
       (Obj [("status", PyStr "error"); ("message", PyStr err)], db) /\
     err <> EmptyString).
Proof.
  intros Hf. split; [|split].
  - intros d a c sub n err db1.
    unfold add_expense, add_expense_try. unfold_storage.
    destruct (f Connect) as [m|] eqn:E1.
    { intros H; inversion H; subst. split; [reflexivity|eauto]. }
    destruct (f ExecInsert) as [m|] eqn:E2; simpl.
    { intros H; inversion H; subst. split; [reflexivity|eauto]. }
    destruct (expenses db) as [t|]; simpl.
    2:{ intros H; inversion H; subst. split; [reflexivity|discriminate]. }
    destruct (next_rowid t) as [i|]; simpl.
    2:{ intros H; inversion H; subst. split; [reflexivity|discriminate]. }
    destruct (f Commit) as [m|] eqn:E3; simpl.
    { intros H; inversion H; subst. split; [reflexivity|eauto]. }
    discriminate.
  - intros s e err db1.
    unfold list_expenses, list_expenses_try. unfold_storage.
    destruct (f Connect) as [m|] eqn:E1.
    { intros H; inversion H; subst. split; [reflexivity|eauto]. }
    destruct (f ExecSelect) as [m|] eqn:E2; simpl.
    { intros H; inversion H; subst. split; [reflexivity|eauto]. }
    destruct (expenses db) as [t|]; simpl.
    2:{ intros H; inversion H; subst. split; [reflexivity|discriminate]. }
    destruct (f FetchAll) as [m|] eqn:E3; simpl.
    { intros H; inversion H; subst. split; [reflexivity|eauto]. }
    discriminate.
  - intros s e cat err db1.
    unfold summarize, summarize_try. unfold_storage.
    destruct (f Connect) as [m|] eqn:E1.
    { intros H; inversion H; subst. split; [reflexivity|eauto]. }
    destruct (f ExecSelect) as [m|] eqn:E2; simpl.
    { intros H; inversion H; subst. split; [reflexivity|eauto]. }
    destruct (expenses db) as [t|]; simpl.
    2:{ intros H; inversion H; subst. split; [reflexivity|discriminate]. }
    destruct (f FetchAll) as [m|] eqn:E3; simpl.
    { intros H; inversion H; subst. split; [reflexivity|eauto]. }
    discriminate.
Qed.

(** C10. [summarize] called with the empty string as category behaves as
    if no category had been given: the condition on the category is added
    only for a truthy argument, so all the categories of the date range are
    summarised, those of any record in range and not only of the records
    whose category is the empty string. *)
Theorem summarize_empty_category_is_no_filter (f : faults) (db : database)
  (s e : string) :
  summarize f db s e (Some EmptyString) = summarize f db s e None /\
  forall t,
    expenses db = Some t ->
    exists gs,
      summarize no_faults db s e (Some EmptyString) =
        (Arr (map group_dict gs), db) /\
      Permutation gs
        (group_by_category
           (filter (fun r => between (date r) s e) (rows t))) /\
      forall r, In r (rows t) -> between (date r) s e = true ->
                In (category r) (map g_category gs).
Proof.
  split; [reflexivity|].
  intros t Ht.
  exists (select_summary (rows t) s e None).
  split; [apply (summarize_ok db t s e (Some EmptyString)), Ht|].
  assert (Hsel : filter (summary_where s e None) (rows t) =
                 filter (fun r => between (date r) s e) (rows t)).
  { apply filter_ext. intros r. unfold summary_where. apply andb_true_r. }
  unfold select_summary. rewrite Hsel. split; [apply order_by_perm|].
  intros r Hin Hr.
  eapply Permutation_in;
    [apply Permutation_map, Permutation_sym, order_by_perm|].
  apply (group_by_category_groups _). apply in_map, filter_In. auto.
Qed.

(** C6. A successful [add_expense] gives the new record an id larger than
    the id of every record of the table and than every id handed out
    before, hence unique in the table; whatever operations follow, the
    record and all earlier ones stay in the table unchanged, later records
    get larger ids, and ids stay unique. *)
Theorem add_expense_assigns_fresh_id (f : faults) (db db' : database)
  (t : table) (i : Z) (d : string) (a : real) (c : string)
  (sub n : option string) :
  expenses db = Some t ->
  NoDup (map id (rows t)) ->
  add_expense f db d a c sub n = (success_payload i, db') ->
  expenses db' = Some (mkTable (rows t ++ [stored_row i d a c sub n]) i) /\
  Forall (fun r => id r < i) (rows t) /\
  seq t < i /\
  NoDup (map id (rows t ++ [stored_row i d a c sub n])) /\
  forall ops : list (faults * operation),
    exists t2 later,
      expenses (run_all ops db') = Some t2 /\
      rows t2 = rows t ++ stored_row i d a c sub n :: later /\
      Forall (fun r => i < id r) later /\
      NoDup (map id (rows t2)).
Proof.
  intros Ht Hnd H.
  apply add_expense_inv in H. destruct H as (t0 & Ht0 & Hi & ->).
  rewrite Ht in Ht0. inversion Ht0; subst t0. clear Ht0.
  pose proof (insert_extends t i (stored_row i d a c sub n) Hi eq_refl)
    as ((added & Hrows & Hadded) & Hhw & Hnd1).
  pose proof (next_rowid_spec _ _ Hi) as Hnext.
  simpl in Hnd1.
  split; [reflexivity|]. split; [|split; [|split; [exact (Hnd1 Hnd)|]]].
  - eapply Forall_impl; [|apply below_high_water]. simpl. intros r Hr. lia.
  - unfold high_water in Hnext. lia.
  - intros ops.
    destruct (run_all_extends ops
                (mkDatabase (journal db)
                   (Some (mkTable (rows t ++ [stored_row i d a c sub n]) i)))
                _ eq_refl) as (t2 & Ht2 & (later & Hr2 & Hl2) & _ & Hnd2).
    exists t2, later. split; [exact Ht2|]. simpl in Hr2, Hnd2.
    split; [rewrite Hr2, <- app_assoc; reflexivity|].
    split; [|exact (Hnd2 (Hnd1 Hnd))].
    eapply Forall_impl; [|exact Hl2]. simpl. intros r Hr.
    unfold high_water in Hr. simpl in Hr. lia.
Qed.

(** C7. Initialisation is idempotent: [init_db] called [n >= 1] times in a
    row never fails, and leaves what a single call leaves: the [expenses]
    table, with the rows it had, or empty if it did not exist. *)
Theorem init_db_idempotent (n : nat) (db : database) :
  (1 <= n)%nat ->
  init_db_times n no_faults db =
    (repeat (inr tt) n, snd (init_db no_faults db)) /\
  expenses (snd (init_db no_faults db)) =
    Some (match expenses db with
          | Some t => t
          | None => mkTable [] 0
          end) /\
  journal (snd (init_db no_faults db)) = WAL /\
  snd (init_db no_faults (snd (init_db no_faults db))) =
    snd (init_db no_faults db).
Proof.
  intros Hn.
  assert (Hc : expenses (create_if_not_exists db) =
               Some (match expenses db with
                     | Some t => t
                     | None => mkTable [] 0
                     end)).
  { unfold create_if_not_exists. destruct (expenses db) eqn:E; simpl; auto. }
  split; [|split; [|split]].
  - destruct n as [|n]; [lia|]. apply init_db_times_no_faults.
  - rewrite init_db_no_faults. exact Hc.
  - rewrite init_db_no_faults. reflexivity.
  - rewrite !init_db_no_faults. simpl.
    rewrite create_if_not_exists_again. reflexivity.
Qed.

(** C8. When no configuration file exists, the resource returns the
    built-in list of eleven categories as JSON indented by two spaces: an
    object with the single key [categories]. *)
Theorem categories_fallback :
  categories Absent =
    String.concat newline
      ["{";
       "  " ++ quoted "categories" ++ ": [";
       "    " ++ quoted "food" ++ ",";
       "    " ++ quoted "transport" ++ ",";
       "    " ++ quoted "housing" ++ ",";
       "    " ++ quoted "utilities" ++ ",";
       "    " ++ quoted "health" ++ ",";
       "    " ++ quoted "education" ++ ",";
       "    " ++ quoted "shopping" ++ ",";
       "    " ++ quoted "entertainment" ++ ",";
       "    " ++ quoted "travel" ++ ",";
       "    " ++ quoted "business" ++ ",";
       "    " ++ quoted "misc";
       "  ]";
       "}"]%string /\
  categories Absent =
    dumps (Some 2%nat)
      (JObj [("categories",
              JArr (map JStr
                      ["food"; "transport"; "housing"; "utilities"; "health";
                       "education"; "shopping"; "entertainment"; "travel";
                       "business"; "misc"]))]) /\
  List.length builtin_categories = 11%nat /\
  NoDup builtin_categories.
Proof.
  split; [reflexivity|]. split; [reflexivity|]. split; [reflexivity|].
  unfold builtin_categories.
  repeat (constructor; [simpl; intros H; repeat (destruct H as [H|H]; [discriminate H|]); exact H|]). constructor.
Qed.

(** C9 (amended). A configuration file that is present and readable is
    returned verbatim, well-formed or not: the built-in list is not
    substituted for a malformed file. *)
Theorem categories_file_verbatim (content : string) :
  categories (Present content) = content /\
  (well_formed_categories_file content = false ->
   categories (Present content) <> categories Absent).
Proof.
  split; [reflexivity|].
  intros Hbad Heq. simpl in Heq. rewrite Heq in Hbad.
  vm_compute in Hbad. discriminate.
Qed.

(** * Further properties of the code *)

(** ** Initialisation under faults *)

(** X1. Whatever storage call fails, [init_db] keeps an existing table as
    it is.  When it returns normally no call has failed, the table exists
    and the journal mode is WAL; otherwise it re-raises the text of the
    failing call after printing the error line built from it. *)
Theorem init_db_outcome (f : faults) (db : database) :
  (forall t, expenses db = Some t ->
             expenses (snd (init_db f db)) = Some t) /\
  match init_db f db with
  | (line, inr _, db') =>
    line = "[INIT] Database initialized successfully" /\
    journal db' = WAL /\ expenses db' <> None /\
    f Connect = None /\ f ExecPragma = None /\
    f ExecCreate = None /\ f Commit = None
  | (line, inl e, db') =>
    line = ("[INIT ERROR] Database init failed: " ++ e)%string /\
    (f Connect = Some e \/ f ExecPragma = Some e \/
     f ExecCreate = Some e \/ f Commit = Some e)
  end.
Proof.
  split; [intros t; apply init_db_keeps_table|].
  unfold init_db, init_db_block. unfold_storage.
  destruct (f Connect) as [e|] eqn:E1; simpl; [auto|].
  destruct (f ExecPragma) as [e|] eqn:E2; simpl; [auto|].
  destruct (f ExecCreate) as [e|] eqn:E3; simpl; [auto 6|].
  destruct (f Commit) as [e|] eqn:E4; simpl; [auto 6|].
  split; [reflexivity|].
  unfold create_if_not_exists. simpl.
  destruct (expenses db); simpl;
    (split; [reflexivity|]); (split; [discriminate|]); auto.
Qed.

(** ** The queries never write *)

(** X2. [list_expenses] and [summarize] leave the database file exactly as
    they found it, whether they succeed or fail. *)
Theorem queries_do_not_write (f : faults) (db : database) (s e : string)
  (cat : option string) :
  snd (list_expenses f db s e) = db /\ snd (summarize f db s e cat) = db.
Proof. split; [apply list_expenses_store|apply summarize_store]. Qed.

(** ** A file without the table *)

(** X3. On a database file that has no [expenses] table, the three tools
    answer with the engine's error [no such table: expenses] and none of
    them creates the table: only [init_db] does. *)
Theorem tools_need_the_table (db : database) :
  expenses db = None ->
  (forall d a c sub n,
     add_expense no_faults db d a c sub n =
     (Obj [("status", PyStr "error");
           ("message", PyStr "no such table: expenses")], db)) /\
  (forall s e,
     list_expenses no_faults db s e =
     (Obj [("status", PyStr "error");
           ("message", PyStr "no such table: expenses")], db)) /\
  (forall s e cat,
     summarize no_faults db s e cat =
     (Obj [("status", PyStr "error");
           ("message", PyStr "no such table: expenses")], db)) /\
  (forall f d a c sub n,
     expenses (snd (add_expense f db d a c sub n)) = None) /\
  expenses (snd (init_db no_faults db)) = Some (mkTable [] 0).
Proof.
  intros Hnone. repeat split.
  - intros d a c sub n. unfold add_expense, add_expense_try.
    unfold_storage. rewrite Hnone. reflexivity.
  - intros s e. unfold list_expenses, list_expenses_try.
    unfold_storage. rewrite Hnone. reflexivity.
  - intros s e cat. unfold summarize, summarize_try.
    unfold_storage. rewrite Hnone. reflexivity.
  - intros f d a c sub n.
    destruct (add_expense_cases f db d a c sub n)
      as [[e ->]|(t & i & Ht & _)]; [exact Hnone|congruence].
  - rewrite init_db_no_faults. unfold create_if_not_exists.
    rewrite Hnone. reflexivity.
Qed.

(** ** No validation on insert *)


(** ** Inserts and the queries *)

(** X5. An expense added with a date outside a range changes neither the
    listing nor the summary of that range. *)
Theorem add_outside_range_is_invisible (f : faults) (db db' : database)
  (i : Z) (d : string) (a : real) (c : string) (sub n : option string)
  (s e : string) (cat : option string) :
  add_expense f db d a c sub n = (success_payload i, db') ->
  between d s e = false ->
  fst (list_expenses no_faults db' s e) =
    fst (list_expenses no_faults db s e) /\
  fst (summarize no_faults db' s e cat) =
    fst (summarize no_faults db s e cat).
Proof.
  intros H Hout. apply add_expense_inv in H.
  destruct H as (t & Ht & Hi & ->).
  erewrite !list_expenses_ok by (simpl; eauto).
  erewrite !summarize_ok by (simpl; eauto).
  simpl. unfold select_range, select_summary.
  rewrite !filter_app.
  assert (H1 : filter (fun r => between (date r) s e)
                 [stored_row i d a c sub n] = []).
  { simpl. rewrite Hout. reflexivity. }
  assert (H2 : filter (summary_where s e (if truthy cat then cat else None))
                 [stored_row i d a c sub n] = []).
  { simpl. unfold summary_where. simpl. rewrite Hout. reflexivity. }
  rewrite H1, H2, !app_nil_r. split; reflexivity.
Qed.

(** ** More on sorting: filtering a sorted list, and uniqueness *)

Section SortedLists.

Context {T : Type} (before : T -> T -> bool).

Hypothesis before_trans :
  forall x y z, before x y = true -> before y z = true -> before x z = true.

Let precedes (x y : T) : Prop := before x y = true.

Lemma insert_by_first (x : T) (l : list T) :
  Forall (precedes x) l -> insert_by before x l = x :: l.
Proof using Type.
  intros H. destruct l as [|y l]; [reflexivity|].
  simpl. inversion H as [|? ? Hxy _]; subst.
  unfold precedes in Hxy. rewrite Hxy. reflexivity.
Qed.

Lemma filter_insert_by (p : T -> bool) (x : T) (l : list T) :
  StronglySorted precedes l ->
  filter p (insert_by before x l) =
  if p x then insert_by before x (filter p l) else filter p l.
Proof using before_trans.
  induction 1 as [|y l Hs IH Hall]; simpl.
  - destruct (p x); reflexivity.
  - destruct (before x y) eqn:Hxy.
    + simpl. destruct (p x) eqn:Hpx; [|reflexivity].
      symmetry. change (insert_by before x (filter p (y :: l)) =
                        x :: filter p (y :: l)).
      apply insert_by_first.
      apply Forall_forall. intros z Hz. apply filter_In in Hz.
      destruct Hz as [[<-|Hz] _]; [exact Hxy|].
      rewrite Forall_forall in Hall.
      exact (before_trans _ _ _ Hxy (Hall z Hz)).
    + simpl. rewrite IH.
      destruct (p y) eqn:Hpy; destruct (p x) eqn:Hpx; simpl;
        try rewrite Hxy; reflexivity.
Qed.

Hypothesis before_total : forall x y, before x y = true \/ before y x = true.

Lemma filter_order_by (p : T -> bool) (l : list T) :
  filter p (order_by before l) = order_by before (filter p l).
Proof using before_trans before_total.
  induction l as [|x l IH]; simpl; [reflexivity|].
  rewrite filter_insert_by
    by (apply order_by_sorted; assumption).
  rewrite IH. destruct (p x); reflexivity.
Qed.

(** Two sorted arrangements of the same elements are the same list, when
    no two distinct elements are each allowed before the other. *)
Lemma sorted_perm_unique (l1 l2 : list T) :
  (forall a b, In a l1 -> In b l1 ->
               precedes a b -> precedes b a -> a = b) ->
  StronglySorted precedes l1 -> StronglySorted precedes l2 ->
  Permutation l1 l2 -> l1 = l2.
Proof using Type.
  revert l2. induction l1 as [|x l1 IH]; intros l2 Hanti S1 S2 Hp.
  - symmetry. apply Permutation_nil, Hp.
  - destruct l2 as [|y l2].
    + apply Permutation_sym, Permutation_nil in Hp. discriminate.
    + apply StronglySorted_inv in S1. destruct S1 as [S1 F1].
      apply StronglySorted_inv in S2. destruct S2 as [S2 F2].
      rewrite Forall_forall in F1, F2.
      assert (Hxy : x = y).
      { assert (Hx : In x (y :: l2))
          by (eapply Permutation_in; [exact Hp|left; reflexivity]).
        assert (Hy : In y (x :: l1))
          by (eapply Permutation_in;
              [apply Permutation_sym, Hp|left; reflexivity]).
        destruct Hx as [->|Hx]; [reflexivity|].
        destruct Hy as [Hy|Hy]; [exact Hy|].
        apply Hanti; [left; reflexivity|right; exact Hy| |].
        - apply F1, Hy.
        - apply F2, Hx. }
      subst y. f_equal. apply IH.
      * intros a b Ha Hb. apply Hanti; right; assumption.
      * exact S1.
      * exact S2.
      * eapply Permutation_cons_inv, Hp.
Qed.

(** Where [insert_by] puts the new element. *)
Lemma insert_by_split (x : T) (l : list T) :
  exists l1 l2,
    l = l1 ++ l2 /\ insert_by before x l = l1 ++ x :: l2 /\
    Forall (fun y => before x y = false) l1 /\
    ((forall a b c, before a b = true -> before b c = true ->
                    before a c = true) ->
     StronglySorted (fun a b => before a b = true) l ->
     Forall (fun y => before x y = true) l2).
Proof using Type.
  induction l as [|y l IH]; simpl.
  - exists [], []. repeat split; constructor.
  - destruct (before x y) eqn:Hxy.
    + exists [], (y :: l). repeat split; [constructor|].
      intros Htr Hs. apply StronglySorted_inv in Hs. destruct Hs as [_ Hall].
      constructor; [exact Hxy|].
      eapply Forall_impl; [|exact Hall]. simpl. intros z Hz.
      exact (Htr _ _ _ Hxy Hz).
    + destruct IH as (l1 & l2 & E1 & E2 & F1 & F2).
      exists (y :: l1), l2. simpl. rewrite <- E1, E2.
      repeat split; [constructor; assumption|].
      intros Htr Hs. apply StronglySorted_inv in Hs. destruct Hs as [Hs _].
      exact (F2 Htr Hs).
Qed.

End SortedLists.

Lemma filter_filter_implied {T : Type} (p q : T -> bool) (l : list T) :
  (forall x, q x = true -> p x = true) ->
  filter q (filter p l) = filter q l.
Proof.
  intros Himp. induction l as [|x l IH]; simpl; [reflexivity|].
  destruct (p x) eqn:Hp; simpl.
  - rewrite IH. reflexivity.
  - destruct (q x) eqn:Hq; [|exact IH].
    rewrite (Himp x Hq) in Hp. discriminate.
Qed.

Lemma NoDup_map_eq {T : Type} (key : T -> Z) (l : list T) (a b : T) :
  NoDup (map key l) -> In a l -> In b l -> key a = key b -> a = b.
Proof.
  induction l as [|x l IH]; simpl; intros Hnd Ha Hb Hk; [contradiction|].
  inversion Hnd as [|? ? Hnotin Hnd']; subst.
  destruct Ha as [->|Ha]; destruct Hb as [->|Hb].
  - reflexivity.
  - exfalso. apply Hnotin. rewrite Hk. apply in_map, Hb.
  - exfalso. apply Hnotin. rewrite <- Hk. apply in_map, Ha.
  - apply IH; assumption.
Qed.

Lemma string_leb_trans (a b c : string) :
  (a <=? b)%string = true -> (b <=? c)%string = true ->
  (a <=? c)%string = true.
Proof.
  unfold String.leb.
  destruct (a ?= b)%string eqn:E1; try discriminate;
    destruct (b ?= c)%string eqn:E2; try discriminate; intros _ _.
  - apply String.compare_eq_iff in E1. rewrite E1, E2. reflexivity.
  - apply String.compare_eq_iff in E1. rewrite E1, E2. reflexivity.
  - apply String.compare_eq_iff in E2. rewrite <- E2, E1. reflexivity.
  - rewrite (string_compare_lt_trans _ _ _ E1 E2). reflexivity.
Qed.

Lemma between_bounds (x lo hi : string) :
  between x lo hi = true -> (lo <=? hi)%string = true.
Proof.
  unfold between. rewrite andb_true_iff. intros [H1 H2].
  exact (string_leb_trans _ _ _ H1 H2).
Qed.

Lemma date_desc_id_desc_antisym (r1 r2 : expense) :
  date_desc_id_desc r1 r2 = true -> date_desc_id_desc r2 r1 = true ->
  id r1 = id r2.
Proof.
  unfold date_desc_id_desc.
  rewrite (String.compare_antisym (date r2) (date r1)).
  destruct (date r1 ?= date r2)%string; simpl; try discriminate.
  rewrite !Z.leb_le. lia.
Qed.

Lemma select_range_unique (l l' : list expense) (s e : string) :
  NoDup (map id l) ->
  StronglySorted (fun r1 r2 => date_desc_id_desc r1 r2 = true) l' ->
  Permutation (filter (fun r => between (date r) s e) l) l' ->
  select_range l s e = l'.
Proof.
  intros Hnd Hs Hp. unfold select_range.
  apply (sorted_perm_unique date_desc_id_desc).
  - intros a b Ha Hb Hab Hba.
    apply (NoDup_map_eq id (filter (fun r => between (date r) s e) l)).
    + apply NoDup_map_filter, Hnd.
    + apply (order_by_in date_desc_id_desc), Ha.
    + apply (order_by_in date_desc_id_desc), Hb.
    + apply date_desc_id_desc_antisym; assumption.
  - apply order_by_sorted;
      [apply date_desc_id_desc_total|apply date_desc_id_desc_trans].
  - exact Hs.
  - eapply perm_trans; [apply order_by_perm|exact Hp].
Qed.

(** ** Ranges *)

(** X6. A range whose end is lexically before its start selects nothing:
    the listing and the summary are empty lists, not errors. *)
Theorem inverted_range_is_empty (db : database) (t : table) (s e : string)
  (cat : option string) :
  expenses db = Some t ->
  (e <? s)%string = true ->
  list_expenses no_faults db s e = (Arr [], db) /\
  summarize no_faults db s e cat = (Arr [], db).
Proof.
  intros Ht Hlt.
  assert (Hout : forall x, between x s e = false).
  { intros x. destruct (between x s e) eqn:E; [|reflexivity].
    apply between_bounds in E. unfold String.leb, String.ltb in *.
    rewrite String.compare_antisym in E.
    destruct (e ?= s)%string; simpl in *; discriminate. }
  rewrite (list_expenses_ok _ _ _ _ Ht), (summarize_ok _ _ _ _ _ Ht).
  unfold select_range, select_summary.
  assert (H1 : filter (fun r => between (date r) s e) (rows t) = []).
  { induction (rows t) as [|r l IH]; simpl; [reflexivity|].
    rewrite Hout. exact IH. }
  assert (H2 : filter (summary_where s e (if truthy cat then cat else None))
                 (rows t) = []).
  { induction (rows t) as [|r l IH]; simpl; [reflexivity|].
    unfold summary_where at 1. rewrite Hout. simpl. apply IH.
    simpl in H1. rewrite Hout in H1. exact H1. }
  rewrite H1, H2. split; reflexivity.
Qed.

(** X7. Listing a range that lies inside another one gives the listing of
    the wider range restricted to the narrower one, in the same order. *)
Theorem list_expenses_subrange (db : database) (t : table)
  (s e s' e' : string) :
  expenses db = Some t ->
  (s <=? s')%string = true -> (e' <=? e)%string = true ->
  exists wide,
    list_expenses no_faults db s e = (Arr (map expense_dict wide), db) /\
    list_expenses no_faults db s' e' =
    (Arr (map expense_dict
            (filter (fun r => between (date r) s' e') wide)), db).
Proof.
  intros Ht Hs He. exists (select_range (rows t) s e).
  rewrite !(list_expenses_ok _ _ _ _ Ht). split; [reflexivity|].
  unfold select_range.
  rewrite filter_order_by
    by (first [apply date_desc_id_desc_total|apply date_desc_id_desc_trans]).
  rewrite filter_filter_implied; [reflexivity|].
  intros r. unfold between. rewrite !andb_true_iff. intros [H1 H2]. split.
  - exact (string_leb_trans _ _ _ Hs H1).
  - exact (string_leb_trans _ _ _ H2 He).
Qed.

(** X8. The listing depends on the records only, not on the order in which
    the table holds them: two tables with the same rows, of distinct ids,
    give the same answer. *)
Theorem list_expenses_ignores_row_order (db1 db2 : database)
  (t1 t2 : table) (s e : string) :
  expenses db1 = Some t1 -> expenses db2 = Some t2 ->
  Permutation (rows t1) (rows t2) ->
  NoDup (map id (rows t1)) ->
  fst (list_expenses no_faults db1 s e) =
  fst (list_expenses no_faults db2 s e).
Proof.
  intros H1 H2 Hp Hnd.
  rewrite (list_expenses_ok _ _ _ _ H1), (list_expenses_ok _ _ _ _ H2).
  simpl. do 2 f_equal.
  apply select_range_unique; [exact Hnd| |].
  - apply (order_by_sorted date_desc_id_desc);
      [apply date_desc_id_desc_total|apply date_desc_id_desc_trans].
  - eapply perm_trans; [|apply Permutation_sym, select_range_perm].
    clear -Hp. induction Hp; simpl.
    + constructor.
    + destruct (between (date x) s e); [constructor|]; assumption.
    + destruct (between (date x) s e), (between (date y) s e);
        try constructor; apply Permutation_refl.
    + eapply perm_trans; eassumption.
Qed.

(** X9. After a successful insert, the listing of a range that contains the
    new date is the earlier listing with the new record put in: after the
    records of later dates and before all those of the same or of an
    earlier date. *)
Theorem add_inside_range_is_inserted (f : faults) (db db' : database)
  (t : table) (i : Z) (d : string) (a : real) (c : string)
  (sub n : option string) (s e : string) :
  expenses db = Some t ->
  NoDup (map id (rows t)) ->
  add_expense f db d a c sub n = (success_payload i, db') ->
  between d s e = true ->
  exists before_it after_it,
    fst (list_expenses no_faults db s e) =
      Arr (map expense_dict (before_it ++ after_it)) /\
    fst (list_expenses no_faults db' s e) =
      Arr (map expense_dict
             (before_it ++ stored_row i d a c sub n :: after_it)) /\
    Forall (fun r => (date r ?= d)%string = Gt) before_it /\
    Forall (fun r => (date r <=? d)%string = true) after_it.
Proof.
  intros Ht Hnd H Hin.
  apply add_expense_inv in H. destruct H as (t0 & Ht0 & Hi & ->).
  rewrite Ht in Ht0. inversion Ht0; subst t0. clear Ht0.
  set (new := stored_row i d a c sub n).
  pose proof (insert_extends t i new Hi eq_refl) as (_ & _ & Hnd1).
  simpl in Hnd1. specialize (Hnd1 Hnd).
  assert (Hsorted : StronglySorted
                      (fun r1 r2 => date_desc_id_desc r1 r2 = true)
                      (select_range (rows t) s e)).
  { apply (order_by_sorted date_desc_id_desc);
      [apply date_desc_id_desc_total|apply date_desc_id_desc_trans]. }
  destruct (insert_by_split date_desc_id_desc new
              (select_range (rows t) s e))
    as (l1 & l2 & Hsplit & Hins & Hl1 & Hl2).
  specialize (Hl2 date_desc_id_desc_trans Hsorted).
  exists l1, l2.
  rewrite (list_expenses_ok _ _ _ _ Ht).
  erewrite list_expenses_ok by reflexivity. simpl.
  split; [rewrite Hsplit; reflexivity|]. split.
  - do 2 f_equal. rewrite <- Hins.
    apply select_range_unique; [exact Hnd1| |].
    + apply insert_by_sorted;
        [apply date_desc_id_desc_total|apply date_desc_id_desc_trans
        |exact Hsorted].
    + rewrite filter_app.
      replace (filter (fun r => between (date r) s e) [new]) with [new]
        by (simpl; rewrite Hin; reflexivity).
      eapply perm_trans; [apply Permutation_app_comm|]. simpl.
      eapply perm_trans; [|apply Permutation_sym, insert_by_perm].
      apply perm_skip, Permutation_sym, select_range_perm.
  - assert (Hold : forall r, In r (select_range (rows t) s e) -> id r < i).
    { intros r Hr. unfold select_range in Hr.
      apply order_by_in, filter_In in Hr. destruct Hr as [Hr _].
      pose proof (below_high_water t) as Hb. rewrite Forall_forall in Hb.
      specialize (Hb r Hr). apply next_rowid_spec in Hi. lia. }
    split; apply Forall_forall; intros r Hr.
    + rewrite Forall_forall in Hl1. specialize (Hl1 r Hr).
      unfold date_desc_id_desc in Hl1. simpl in Hl1.
      rewrite String.compare_antisym.
      destruct (d ?= date r)%string eqn:E; simpl;
        [|reflexivity|discriminate].
      apply Z.leb_gt in Hl1.
      assert (id r < i) by (apply Hold; rewrite Hsplit;
                            apply in_or_app; left; exact Hr).
      lia.
    + rewrite Forall_forall in Hl2. specialize (Hl2 r Hr).
      unfold date_desc_id_desc in Hl2. simpl in Hl2.
      destruct (d ?= date r)%string eqn:E; [| discriminate |].
      * apply String.compare_eq_iff in E. rewrite <- E.
        apply string_leb_refl.
      * apply string_leb_gt, E.
Qed.

(** ** Summaries and listings together *)

Lemma total_count_accumulate (r : expense) (gs : list group) :
  total_count (accumulate r gs) = total_count gs + 1.
Proof.
  induction gs as [|g gs IH]; simpl; [reflexivity|].
  destruct (g_category g =? category r)%string; simpl; [lia|].
  rewrite IH. lia.
Qed.

Lemma total_count_group_by (l : list expense) :
  total_count (group_by_category l) = Z.of_nat (List.length l).
Proof.
  unfold group_by_category.
  assert (G : forall gs,
             total_count (fold_left (fun gs r => accumulate r gs) l gs) =
             total_count gs + Z.of_nat (List.length l)).
  { induction l as [|r l IH]; intros gs; simpl List.length; simpl fold_left.
    - lia.
    - rewrite IH, total_count_accumulate. lia. }
  rewrite G. reflexivity.
Qed.

Lemma total_count_perm (gs gs' : list group) :
  Permutation gs gs' -> total_count gs = total_count gs'.
Proof. induction 1; simpl; lia. Qed.

Lemma counts_positive_accumulate (r : expense) (gs : list group) :
  Forall (fun g => 1 <= count g) gs ->
  Forall (fun g => 1 <= count g) (accumulate r gs).
Proof.
  induction 1 as [|g gs Hg Hgs IH]; simpl.
  - repeat constructor. simpl. lia.
  - destruct (g_category g =? category r)%string; constructor; simpl;
      try assumption. lia.
Qed.

Lemma counts_positive_group_by (l : list expense) :
  Forall (fun g => 1 <= count g) (group_by_category l).
Proof.
  unfold group_by_category.
  assert (G : forall gs,
             Forall (fun g => 1 <= count g) gs ->
             Forall (fun g => 1 <= count g)
               (fold_left (fun gs r => accumulate r gs) l gs)).
  { induction l as [|r l IH]; intros gs H; simpl; [exact H|].
    apply IH, counts_positive_accumulate, H. }
  apply G. constructor.
Qed.

(** X10. The summary and the listing of a range agree: the counts of the
    groups add up to the number of listed records, no group is empty, and
    the summary is empty exactly when the listing is. *)
Theorem summarize_counts_match_listing (db : database) (t : table)
  (s e : string) :
  expenses db = Some t ->
  exists gs listed,
    summarize no_faults db s e None = (Arr (map group_dict gs), db) /\
    list_expenses no_faults db s e = (Arr (map expense_dict listed), db) /\
    total_count gs = Z.of_nat (List.length listed) /\
    Forall (fun g => 1 <= count g) gs /\
    (gs = [] <-> listed = []).
Proof.
  intros Ht.
  exists (select_summary (rows t) s e None), (select_range (rows t) s e).
  split; [apply (summarize_ok db t s e None), Ht|].
  split; [apply list_expenses_ok, Ht|].
  assert (Hsel : filter (summary_where s e None) (rows t) =
                 filter (fun r => between (date r) s e) (rows t)).
  { apply filter_ext. intros r. unfold summary_where. apply andb_true_r. }
  assert (Hcount : total_count (select_summary (rows t) s e None) =
                   Z.of_nat (List.length (select_range (rows t) s e))).
  { unfold select_summary, select_range. rewrite Hsel.
    rewrite (total_count_perm _ _ (order_by_perm total_desc _)).
    rewrite total_count_group_by.
    rewrite (Permutation_length (order_by_perm date_desc_id_desc _)).
    reflexivity. }
  assert (Hpos : Forall (fun g => 1 <= count g)
                   (select_summary (rows t) s e None)).
  { unfold select_summary.
    eapply Permutation_Forall;
      [apply Permutation_sym, order_by_perm|apply counts_positive_group_by]. }
  split; [exact Hcount|]. split; [exact Hpos|].
  split; intros H.
  - rewrite H in Hcount. simpl in Hcount.
    destruct (select_range (rows t) s e); [reflexivity|].
    simpl List.length in Hcount. lia.
  - rewrite H in Hcount. simpl in Hcount.
    destruct (select_summary (rows t) s e None) as [|g gs]; [reflexivity|].
    inversion Hpos as [|? ? Hg Hgs]; subst. simpl in Hcount.
    assert (0 <= total_count gs).
    { clear -Hgs. induction Hgs; simpl; lia. }
    lia.
Qed.

(** X11. With a non-empty category as filter, the summary has at most one
    object, and its category is the one asked for. *)
Theorem summarize_filter_single_group (db : database) (t : table)
  (s e c : string) :
  expenses db = Some t ->
  c <> EmptyString ->
  exists gs,
    summarize no_faults db s e (Some c) = (Arr (map group_dict gs), db) /\
    (List.length gs <= 1)%nat /\
    Forall (fun g => g_category g = c) gs.
Proof.
  intros Ht Hc.
  exists (select_summary (rows t) s e (Some c)).
  split.
  { rewrite (summarize_ok _ _ _ _ (Some c) Ht).
    destruct c; [congruence|reflexivity]. }
  unfold select_summary.
  set (selected := filter (summary_where s e (Some c)) (rows t)).
  destruct (groups_of_perm selected _ _
              (Permutation_sym (order_by_perm total_desc _))
              (group_by_category_groups selected)) as (Hnd & Hcat & _).
  set (gs := order_by total_desc (group_by_category selected)) in *.
  assert (Hall : Forall (fun g => g_category g = c) gs).
  { apply Forall_forall. intros g Hg.
    apply (in_map g_category), Hcat, in_map_iff in Hg.
    destruct Hg as (r & Hr & Hin). rewrite <- Hr.
    apply filter_In in Hin. destruct Hin as [_ Hw].
    unfold summary_where in Hw. apply andb_true_iff in Hw.
    apply String.eqb_eq, Hw. }
  split; [|exact Hall].
  destruct gs as [|g1 [|g2 gs]]; simpl; [lia|lia|].
  exfalso. simpl in Hnd. inversion Hnd as [|? ? Hnotin _]; subst.
  apply Hnotin. left.
  inversion Hall as [|? ? H1 Hrest]; subst.
  inversion Hrest as [|? ? H2 _]; subst. congruence.
Qed.

(** ** Stores built by the system *)

Lemma largest_rowid_le (l : list expense) (m : Z) :
  0 <= m -> Forall (fun r => id r <= m) l -> largest_rowid l <= m.
Proof. intros Hm. induction 1; simpl; lia. Qed.

Lemma consecutive_ids_high_water (t : table) :
  consecutive_ids t -> high_water t = Z.of_nat (List.length (rows t)).
Proof.
  intros [Hids Hseq]. unfold high_water. rewrite Hseq.
  assert (largest_rowid (rows t) <= Z.of_nat (List.length (rows t))).
  { apply largest_rowid_le; [lia|].
    apply Forall_forall. intros r Hr.
    apply (in_map id) in Hr. rewrite Hids in Hr.
    apply in_map_iff in Hr. destruct Hr as (k & <- & Hk).
    apply in_seq in Hk. lia. }
  lia.
Qed.

Lemma run_keeps_consecutive (f : faults) (op : operation) (db : database)
  (t : table) :
  expenses db = Some t -> consecutive_ids t -> no_nulls t ->
  exists t', expenses (run f op db) = Some t' /\
             consecutive_ids t' /\ no_nulls t'.
Proof.
  intros Ht Hc Hn. destruct op as [|d a c sub n|s e|s e c]; simpl.
  - exists t. split; [apply init_db_keeps_table, Ht|auto].
  - destruct (add_expense_cases f db d a c sub n)
      as [[e ->]|(t0 & i & Ht0 & Hi & ->)]; simpl.
    + exists t. auto.
    + rewrite Ht in Ht0. inversion Ht0; subst t0.
      eexists. split; [reflexivity|].
      apply next_rowid_spec in Hi.
      rewrite (consecutive_ids_high_water t Hc) in Hi.
      destruct Hc as [Hids Hseq]. split; [split|]; simpl.
      * rewrite length_app, map_app, Hids. simpl List.length.
        rewrite Nat.add_1_r, seq_S, map_app. simpl. f_equal. f_equal. lia.
      * rewrite length_app. simpl List.length. lia.
      * unfold no_nulls. simpl. apply Forall_app. split; [exact Hn|].
        repeat constructor; simpl; discriminate.
  - rewrite list_expenses_store. exists t. auto.
  - rewrite summarize_store. exists t. auto.
Qed.

(** X12. In a store that starts from a new file and is used through the
    system's operations only, whatever calls fail on the way, the rowids
    are [1, 2, ..., n] in insertion order (a failed insert uses up no id)
    and no record has a NULL subcategory or note. *)
Theorem fresh_store_invariant (ops : list (faults * operation)) :
  exists t,
    expenses (run_all ops fresh_db) = Some t /\
    map id (rows t) = map Z.of_nat (List.seq 1 (List.length (rows t))) /\
    seq t = Z.of_nat (List.length (rows t)) /\
    Forall (fun r => subcategory r <> None /\ note r <> None) (rows t).
Proof.
  assert (G : forall ops db t,
             expenses db = Some t -> consecutive_ids t -> no_nulls t ->
             exists t', expenses (run_all ops db) = Some t' /\
                        consecutive_ids t' /\ no_nulls t').
  { clear ops. induction ops as [|[f op] ops IH]; simpl; intros db t Ht Hc Hn.
    - exists t. auto.
    - destruct (run_keeps_consecutive f op db t Ht Hc Hn)
        as (t1 & Ht1 & Hc1 & Hn1).
      exact (IH _ _ Ht1 Hc1 Hn1). }
  destruct (G ops fresh_db (mkTable [] 0) fresh_db_table)
    as (t & Ht & [Hids Hseq] & Hn).
  - split; reflexivity.
  - constructor.
  - exists t. auto.
Qed.

(** ** The error document of the resource *)

Lemma concat_empty_cons (x : string) (xs : list string) :
  String.concat EmptyString (x :: xs) =
  (x ++ String.concat EmptyString xs)%string.
Proof.
  destruct xs as [|y xs]; simpl; [|reflexivity].
  induction x as [|ch x IH]; simpl; [reflexivity|]. rewrite <- IH.
  reflexivity.
Qed.

Lemma append_assoc (a b c : string) :
  ((a ++ b) ++ c)%string = (a ++ b ++ c)%string.
Proof. induction a as [|ch a IH]; simpl; [reflexivity|]. rewrite IH.
  reflexivity. Qed.

Lemma is_hex_hex_digit (k : N) : is_hex (hex_digit k) = true.
Proof.
  destruct k as [|p]; [reflexivity|].
  destruct p as [p|p|]; try reflexivity;
    destruct p as [p|p|]; try reflexivity;
    destruct p as [p|p|]; try reflexivity;
    destruct p as [p|p|]; try reflexivity.
Qed.

Lemma string_body_u (h1 h2 h3 h4 : ascii) (rest : string) :
  is_hex h1 = true -> is_hex h2 = true ->
  is_hex h3 = true -> is_hex h4 = true ->
  string_body
    (String "092" (String "u"
       (String h1 (String h2 (String h3 (String h4 rest)))))) =
  string_body rest.
Proof. intros H1 H2 H3 H4. simpl. rewrite H1, H2, H3, H4. reflexivity. Qed.

Lemma string_body_u_escape (k : N) (rest : string) :
  string_body (u_escape k ++ rest) = string_body rest.
Proof.
  unfold u_escape.
  apply (string_body_u
           (hex_digit (N.land (N.shiftr k 12) 15))
           (hex_digit (N.land (N.shiftr k 8) 15))
           (hex_digit (N.land (N.shiftr k 4) 15))
           (hex_digit (N.land k 15)) rest);
    apply is_hex_hex_digit.
Qed.

Lemma string_body_plain (ch : ascii) (rest : string) :
  Ascii.eqb ch "034" = false -> Ascii.eqb ch "092" = false ->
  (N_of_ascii ch <? 32)%N = false ->
  string_body (String ch rest) = string_body rest.
Proof. intros H1 H2 H3. simpl. rewrite H1, H2, H3. reflexivity. Qed.

Lemma string_body_escape (k : N) (rest : string) :
  string_body (escape_code_point k ++ rest) = string_body rest.
Proof.
  unfold escape_code_point.
  destruct (N.eqb_spec k 34) as [E1|E1]; [reflexivity|].
  destruct (N.eqb_spec k 92) as [E2|E2]; [reflexivity|].
  destruct (k =? 10)%N; [reflexivity|].
  destruct (k =? 13)%N; [reflexivity|].
  destruct (k =? 9)%N; [reflexivity|].
  destruct (k =? 12)%N; [reflexivity|].
  destruct (k =? 8)%N; [reflexivity|].
  destruct ((32 <=? k) && (k <=? 126))%N eqn:Hp.
  - apply andb_true_iff in Hp. destruct Hp as [L1 L2].
    apply N.leb_le in L1, L2.
    assert (Hk : N_of_ascii (ascii_of_N k) = k)
      by (apply N_ascii_embedding; lia).
    change (String (ascii_of_N k) EmptyString ++ rest)%string
      with (String (ascii_of_N k) rest).
    apply string_body_plain.
    + destruct (Ascii.eqb_spec (ascii_of_N k) "034") as [E|_];
        [|reflexivity].
      rewrite E in Hk. exfalso. apply E1. rewrite <- Hk. reflexivity.
    + destruct (Ascii.eqb_spec (ascii_of_N k) "092") as [E|_];
        [|reflexivity].
      rewrite E in Hk. exfalso. apply E2. rewrite <- Hk. reflexivity.
    + rewrite Hk. apply N.ltb_ge, L1.
  - destruct (k <? 65536)%N.
    + apply string_body_u_escape.
    + rewrite append_assoc, !string_body_u_escape. reflexivity.
Qed.

Lemma json_string_encode_string (x : string) :
  json_string (encode_string x) = Some EmptyString.
Proof.
  unfold encode_string, json_string. simpl.
  induction (code_points x) as [|k ks IH].
  - reflexivity.
  - cbn [map]. rewrite concat_empty_cons, append_assoc.
    rewrite string_body_escape. exact IH.
Qed.

(** X13. When the configuration file exists but cannot be read, the
    resource returns the one-line document [{"error": "..."}] and raises
    nothing; whatever the error text holds (quotes, backslashes, control
    or non-ASCII characters), the value is one complete JSON string
    literal. *)
Theorem categories_unreadable_is_json (err : string) :
  exists literal,
    categories (Unreadable err) =
      ("{" ++ quoted "error" ++ ": " ++ literal ++ "}")%string /\
    literal = encode_string err /\
    json_string literal = Some EmptyString.
Proof.
  exists (encode_string err). split; [|split].
  - reflexivity.
  - reflexivity.
  - apply json_string_encode_string.
Qed.

End Store.

(** * The properties at work on concrete stores

    The store's REAL values are read as integers here. *)

Lemma add_then_list_roundtrip_witness :
  add_expense Z no_faults (sample_db Z 10 5 7) "2024-02-10" 12 "food"
    None (Some "gift") =
  (success_payload Z 4,
   mkDatabase Z WAL
     (Some (mkTable Z
              (rows Z (sample_table Z 10 5 7) ++
               [mkExpense Z 4 "2024-02-10" 12 "food"
                  (Some EmptyString) (Some "gift")]) 4))) /\
  exists l,
    fst (list_expenses Z no_faults
           (mkDatabase Z WAL
              (Some (mkTable Z
                       (rows Z (sample_table Z 10 5 7) ++
                        [mkExpense Z 4 "2024-02-10" 12 "food"
                           (Some EmptyString) (Some "gift")]) 4)))
           "2024-02-02" "2024-02-28") = Arr Z l /\
    In [("id", PyInt Z 4); ("date", PyStr Z "2024-02-10");
        ("amount", PyFloat Z 12); ("category", PyStr Z "food");
        ("subcategory", PyStr Z EmptyString); ("note", PyStr Z "gift")] l.
Proof.
  split; [reflexivity|].
  destruct (add_then_list_roundtrip Z) as [_ H].
  destruct (H no_faults (sample_db Z 10 5 7)
              (mkDatabase Z WAL
                 (Some (mkTable Z
                          (rows Z (sample_table Z 10 5 7) ++
                           [mkExpense Z 4 "2024-02-10" 12 "food"
                              (Some EmptyString) (Some "gift")]) 4)))
              4 "2024-02-10" 12 "food" None (Some "gift") eq_refl)
    as (t' & r & Ht' & Hin & Hid & Hd & Ha & Hc & Hsub & Hn & Hlist).
  destruct (Hlist "2024-02-02" "2024-02-28" eq_refl eq_refl)
    as (l & Hl & Hmem).
  exists l. split; [rewrite Hl; reflexivity|].
  destruct r as [ri rd ra rc rs rn]. simpl in *. subst.
  exact Hmem.
Defined.

Lemma list_expenses_selects_range_witness :
  expenses Z (sample_db Z 10 5 7) = Some (sample_table Z 10 5 7) /\
  exists listed,
    list_expenses Z no_faults (sample_db Z 10 5 7) "2024-02-02" "2024-02-28"
    = (Arr Z (map (expense_dict Z) listed), sample_db Z 10 5 7) /\
    Permutation listed
      [mkExpense Z 2 "2024-02-03" 5 "food" (Some "lunch") (Some EmptyString);
       mkExpense Z 3 "2024-02-03" 7 "travel" (Some EmptyString)
         (Some "taxi")].
Proof.
  split; [reflexivity|].
  destruct (list_expenses_selects_range Z (sample_db Z 10 5 7)
              (sample_table Z 10 5 7) "2024-02-02" "2024-02-28" eq_refl)
    as (listed & H1 & H2 & _).
  exists listed. split; [exact H1|exact H2].
Defined.

Lemma list_expenses_sorted_witness :
  expenses Z (sample_db Z 10 5 7) = Some (sample_table Z 10 5 7) /\
  NoDup (map (id Z) (rows Z (sample_table Z 10 5 7))) /\
  exists listed,
    list_expenses Z no_faults (sample_db Z 10 5 7) "2024-02-01" "2024-02-03"
    = (Arr Z (map (expense_dict Z) listed), sample_db Z 10 5 7) /\
    StronglySorted (strictly_listed_before Z) listed.
Proof.
  assert (Hnd : NoDup (map (id Z) (rows Z (sample_table Z 10 5 7)))).
  { simpl. repeat (constructor; [simpl; lia|]). constructor. }
  split; [reflexivity|]. split; [exact Hnd|].
  destruct (list_expenses_sorted Z (sample_db Z 10 5 7)
              (sample_table Z 10 5 7) "2024-02-01" "2024-02-03" eq_refl)
    as (listed & H1 & _ & H3).
  exists listed. split; [exact H1|exact (H3 Hnd)].
Defined.

Lemma summarize_groups_by_category_witness :
  (forall x y, (x <=? y) = true \/ (y <=? x) = true) /\
  (forall x y z, (x <=? y) = true -> (y <=? z) = true -> (x <=? z) = true) /\
  expenses Z (sample_db Z 10 5 7) = Some (sample_table Z 10 5 7) /\
  exists gs,
    summarize Z Z.add 0 Z.leb no_faults (sample_db Z 10 5 7)
      "2024-02-01" "2024-02-28" (Some "food") =
    (Arr Z (map (group_dict Z) gs), sample_db Z 10 5 7) /\
    forall g, In g gs ->
      total_amount Z g = 15 /\ count Z g = 2 /\ g_category Z g = "food".
Proof.
  assert (Htot : forall x y, (x <=? y) = true \/ (y <=? x) = true).
  { intros x y. rewrite !Z.leb_le. lia. }
  assert (Htr : forall x y z,
             (x <=? y) = true -> (y <=? z) = true -> (x <=? z) = true).
  { intros x y z. rewrite !Z.leb_le. lia. }
  split; [exact Htot|]. split; [exact Htr|]. split; [reflexivity|].
  destruct (summarize_groups_by_category Z Z.add 0 Z.leb Htot Htr
              (sample_db Z 10 5 7) (sample_table Z 10 5 7)
              "2024-02-01" "2024-02-28" (Some "food") eq_refl)
    as (gs & H1 & _ & Hcat & Hsum & _).
  exists gs. split; [exact H1|].
  intros g Hg.
  assert (Hc : g_category Z g = "food").
  { destruct (proj1 (Hcat (g_category Z g)) (in_map _ _ _ Hg))
      as (r & Hr & Heq).
    rewrite <- Heq. simpl in Hr.
    destruct Hr as [<-|[<-|[]]]; reflexivity. }
  destruct (Hsum g Hg) as [Ht Hn]. rewrite Hc in Ht, Hn.
  split; [exact Ht|]. split; [exact Hn|exact Hc].
Defined.

(** The claim C4 as first stated fails for the empty string: no record of
    the sample store has the empty category, yet the summary is not
    empty. *)
Lemma summarize_empty_filter_counterexample :
  filter (fun r => between (date Z r) "2024-02-01" "2024-02-28" &&
                   (category Z r =? EmptyString)%string)
    (rows Z (sample_table Z 10 5 7)) = [] /\
  fst (summarize Z Z.add 0 Z.leb no_faults (sample_db Z 10 5 7)
         "2024-02-01" "2024-02-28" (Some EmptyString)) =
  Arr Z [[("category", PyStr Z "food"); ("total_amount", PyFloat Z 15);
          ("count", PyInt Z 2)];
         [("category", PyStr Z "travel"); ("total_amount", PyFloat Z 7);
          ("count", PyInt Z 1)]] /\
  fst (summarize Z Z.add 0 Z.leb no_faults (sample_db Z 10 5 7)
         "2024-02-01" "2024-02-28" (Some EmptyString)) <> Arr Z [].
Proof.
  split; [reflexivity|]. split; [reflexivity|].
  vm_compute. discriminate.
Qed.

Lemma storage_failure_is_error_payload_witness :
  (forall call msg,
     fail_at Commit "database is locked" call = Some msg ->
     msg <> EmptyString) /\
  add_expense_try Z (fail_at Commit "database is locked")
    (sample_db Z 10 5 7) "2024-02-10" 12 "food" None None =
  (inl "database is locked", sample_db Z 10 5 7) /\
  add_expense Z (fail_at Commit "database is locked")
    (sample_db Z 10 5 7) "2024-02-10" 12 "food" None None =
  (Obj Z [("status", PyStr Z "error");
          ("message", PyStr Z "database is locked")],
   sample_db Z 10 5 7).
Proof.
  assert (Hf : forall call msg,
             fail_at Commit "database is locked" call = Some msg ->
             msg <> EmptyString).
  { intros call msg. destruct call; simpl; intros H; inversion H.
    discriminate. }
  split; [exact Hf|]. split; [reflexivity|].
  destruct (storage_failure_is_error_payload Z Z.add 0 Z.leb
              (fail_at Commit "database is locked") (sample_db Z 10 5 7) Hf)
    as [Hadd _].
  exact (proj1 (Hadd "2024-02-10" 12 "food" None None
                  "database is locked" _ eq_refl)).
Defined.

Lemma add_expense_assigns_fresh_id_witness :
  expenses Z (sample_db Z 10 5 7) = Some (sample_table Z 10 5 7) /\
  NoDup (map (id Z) (rows Z (sample_table Z 10 5 7))) /\
  fst (add_expense Z no_faults (sample_db Z 10 5 7)
         "2024-02-10" 12 "food" None None) = success_payload Z 4 /\
  Forall (fun r => id Z r < 4) (rows Z (sample_table Z 10 5 7)) /\
  exists t2 later,
    expenses Z
      (run_all Z Z.add 0 Z.leb
         [(no_faults, InitDb Z);
          (no_faults, AddExpense Z "2024-01-01" 1 "misc" None None)]
         (snd (add_expense Z no_faults (sample_db Z 10 5 7)
                 "2024-02-10" 12 "food" None None))) = Some t2 /\
    rows Z t2 =
      rows Z (sample_table Z 10 5 7) ++
      stored_row Z 4 "2024-02-10" 12 "food" None None :: later /\
    Forall (fun r => 4 < id Z r) later.
Proof.
  assert (Hnd : NoDup (map (id Z) (rows Z (sample_table Z 10 5 7)))).
  { simpl. repeat (constructor; [simpl; lia|]). constructor. }
  split; [reflexivity|]. split; [exact Hnd|]. split; [reflexivity|].
  destruct (add_expense_assigns_fresh_id Z Z.add 0 Z.leb no_faults
              (sample_db Z 10 5 7) _ (sample_table Z 10 5 7) 4
              "2024-02-10" 12 "food" None None eq_refl Hnd eq_refl)
    as (_ & Hlt & _ & _ & Hlater).
  split; [exact Hlt|].
  destruct (Hlater [(no_faults, InitDb Z);
                    (no_faults, AddExpense Z "2024-01-01" 1 "misc" None None)])
    as (t2 & later & H1 & H2 & H3 & _).
  exists t2, later. split; [exact H1|]. split; [exact H2|exact H3].
Defined.

Lemma init_db_idempotent_witness :
  (1 <= 3)%nat /\
  init_db_times Z 3 no_faults (empty_file Z) =
  ([inr tt; inr tt; inr tt], mkDatabase Z WAL (Some (mkTable Z [] 0))) /\
  expenses Z (snd (init_db_times Z 3 no_faults (sample_db Z 10 5 7))) =
  Some (sample_table Z 10 5 7).
Proof.
  split; [lia|].
  destruct (init_db_idempotent Z 3 (empty_file Z)) as (H1 & _); [lia|].
  destruct (init_db_idempotent Z 3 (sample_db Z 10 5 7)) as (H2 & H3 & _);
    [lia|].
  split.
  - rewrite H1. reflexivity.
  - rewrite H2. exact H3.
Defined.

(** The claim C9 as first stated fails: a malformed file is returned as it
    is, not replaced by the built-in list. *)
Lemma categories_malformed_file_counterexample :
  well_formed_categories_file "not json" = false /\
  categories (Present "not json") = "not json" /\
  categories (Present "not json") <> categories Absent.
Proof.
  split; [reflexivity|]. split; [reflexivity|].
  vm_compute. discriminate.
Qed.

Lemma categories_file_verbatim_witness :
  well_formed_categories_file "{categories: [food]}" = false /\
  categories (Present "{categories: [food]}") = "{categories: [food]}" /\
  categories (Present "{categories: [food]}") <> categories Absent.
Proof.
  split; [reflexivity|].
  destruct (categories_file_verbatim "{categories: [food]}") as [H1 H2].
  split; [exact H1|exact (H2 eq_refl)].
Defined.

Lemma summarize_empty_category_is_no_filter_witness :
  expenses Z (sample_db Z 10 5 7) = Some (sample_table Z 10 5 7) /\
  exists gs,
    summarize Z Z.add 0 Z.leb no_faults (sample_db Z 10 5 7)
      "2024-02-01" "2024-02-28" (Some EmptyString) =
    (Arr Z (map (group_dict Z) gs), sample_db Z 10 5 7) /\
    In "food" (map (g_category Z) gs) /\
    In "travel" (map (g_category Z) gs).
Proof.
  split; [reflexivity|].
  destruct (summarize_empty_category_is_no_filter Z Z.add 0 Z.leb no_faults
              (sample_db Z 10 5 7) "2024-02-01" "2024-02-28") as [_ H].
  destruct (H (sample_table Z 10 5 7) eq_refl) as (gs & H1 & _ & H3).
  exists gs. split; [exact H1|]. split.
  - apply (H3 (mkExpense Z 1 "2024-02-01" 10 "food"
                 (Some EmptyString) (Some EmptyString)));
      [simpl; auto|reflexivity].
  - apply (H3 (mkExpense Z 3 "2024-02-03" 7 "travel"
                 (Some EmptyString) (Some "taxi")));
      [simpl; auto|reflexivity].
Defined.

Lemma init_db_outcome_witness :
  expenses Z (sample_db Z 10 5 7) = Some (sample_table Z 10 5 7) /\
  init_db Z (fail_at ExecCreate "disk I/O error") (sample_db Z 10 5 7) =
  ("[INIT ERROR] Database init failed: disk I/O error",
   inl "disk I/O error", sample_db Z 10 5 7) /\
  expenses Z
    (snd (init_db Z (fail_at ExecCreate "disk I/O error")
            (sample_db Z 10 5 7))) = Some (sample_table Z 10 5 7).
Proof.
  split; [reflexivity|]. split; [reflexivity|].
  exact (proj1 (init_db_outcome Z (fail_at ExecCreate "disk I/O error")
                  (sample_db Z 10 5 7))
           (sample_table Z 10 5 7) eq_refl).
Defined.

Lemma tools_need_the_table_witness :
  expenses Z (empty_file Z) = None /\
  list_expenses Z no_faults (empty_file Z) "2024-01-01" "2024-12-31" =
  (Obj Z [("status", PyStr Z "error");
          ("message", PyStr Z "no such table: expenses")], empty_file Z).
Proof.
  split; [reflexivity|].
  destruct (tools_need_the_table Z Z.add 0 Z.leb (empty_file Z) eq_refl)
    as (_ & H & _).
  apply H.
Defined.


Lemma add_outside_range_is_invisible_witness :
  between "2025-01-01" "2024-02-01" "2024-02-28" = false /\
  fst (list_expenses Z no_faults
         (snd (add_expense Z no_faults (sample_db Z 10 5 7)
                 "2025-01-01" 12 "food" None None))
         "2024-02-01" "2024-02-28") =
  fst (list_expenses Z no_faults (sample_db Z 10 5 7)
         "2024-02-01" "2024-02-28").
Proof.
  split; [reflexivity|].
  exact (proj1 (add_outside_range_is_invisible Z Z.add 0 Z.leb no_faults
                  (sample_db Z 10 5 7)
                  (snd (add_expense Z no_faults (sample_db Z 10 5 7)
                          "2025-01-01" 12 "food" None None))
                  4 "2025-01-01" 12 "food" None None
                  "2024-02-01" "2024-02-28" None eq_refl eq_refl)).
Defined.

Lemma inverted_range_is_empty_witness :
  ("2024-02-01" <? "2024-03-01")%string = true /\
  list_expenses Z no_faults (sample_db Z 10 5 7) "2024-03-01" "2024-02-01" =
  (Arr Z [], sample_db Z 10 5 7).
Proof.
  split; [reflexivity|].
  exact (proj1 (inverted_range_is_empty Z Z.add 0 Z.leb (sample_db Z 10 5 7)
                  (sample_table Z 10 5 7) "2024-03-01" "2024-02-01" None
                  eq_refl eq_refl)).
Defined.

Lemma list_expenses_subrange_witness :
  ("2024-01-01" <=? "2024-02-02")%string = true /\
  ("2024-02-28" <=? "2024-12-31")%string = true /\
  exists wide,
    list_expenses Z no_faults (sample_db Z 10 5 7)
      "2024-01-01" "2024-12-31" =
    (Arr Z (map (expense_dict Z) wide), sample_db Z 10 5 7) /\
    list_expenses Z no_faults (sample_db Z 10 5 7)
      "2024-02-02" "2024-02-28" =
    (Arr Z (map (expense_dict Z)
              (filter (fun r => between (date Z r) "2024-02-02" "2024-02-28")
                 wide)), sample_db Z 10 5 7).
Proof.
  split; [reflexivity|]. split; [reflexivity|].
  exact (list_expenses_subrange Z (sample_db Z 10 5 7)
           (sample_table Z 10 5 7)
           "2024-01-01" "2024-12-31" "2024-02-02" "2024-02-28"
           eq_refl eq_refl eq_refl).
Defined.

Lemma list_expenses_ignores_row_order_witness :
  Permutation (rows Z (sample_table Z 10 5 7))
    (rev (rows Z (sample_table Z 10 5 7))) /\
  NoDup (map (id Z) (rows Z (sample_table Z 10 5 7))) /\
  fst (list_expenses Z no_faults (sample_db Z 10 5 7)
         "2024-02-01" "2024-02-28") =
  fst (list_expenses Z no_faults
         (mkDatabase Z WAL
            (Some (mkTable Z (rev (rows Z (sample_table Z 10 5 7))) 3)))
         "2024-02-01" "2024-02-28").
Proof.
  assert (Hp : Permutation (rows Z (sample_table Z 10 5 7))
                 (rev (rows Z (sample_table Z 10 5 7))))
    by apply Permutation_rev.
  assert (Hnd : NoDup (map (id Z) (rows Z (sample_table Z 10 5 7)))).
  { simpl. repeat (constructor; [simpl; lia|]). constructor. }
  split; [exact Hp|]. split; [exact Hnd|].
  exact (list_expenses_ignores_row_order Z (sample_db Z 10 5 7)
           (mkDatabase Z WAL
              (Some (mkTable Z (rev (rows Z (sample_table Z 10 5 7))) 3)))
           (sample_table Z 10 5 7)
           (mkTable Z (rev (rows Z (sample_table Z 10 5 7))) 3)
           "2024-02-01" "2024-02-28" eq_refl eq_refl Hp Hnd).
Defined.

Lemma add_inside_range_is_inserted_witness :
  NoDup (map (id Z) (rows Z (sample_table Z 10 5 7))) /\
  between "2024-02-03" "2024-02-01" "2024-02-28" = true /\
  exists before_it after_it,
    fst (list_expenses Z no_faults
           (snd (add_expense Z no_faults (sample_db Z 10 5 7)
                   "2024-02-03" 12 "food" None None))
           "2024-02-01" "2024-02-28") =
    Arr Z (map (expense_dict Z)
             (before_it ++
              stored_row Z 4 "2024-02-03" 12 "food" None None :: after_it)) /\
    Forall (fun r => (date Z r <=? "2024-02-03")%string = true) after_it.
Proof.
  assert (Hnd : NoDup (map (id Z) (rows Z (sample_table Z 10 5 7)))).
  { simpl. repeat (constructor; [simpl; lia|]). constructor. }
  split; [exact Hnd|]. split; [reflexivity|].
  destruct (add_inside_range_is_inserted Z no_faults (sample_db Z 10 5 7)
              (snd (add_expense Z no_faults (sample_db Z 10 5 7)
                      "2024-02-03" 12 "food" None None))
              (sample_table Z 10 5 7) 4 "2024-02-03" 12 "food" None None
              "2024-02-01" "2024-02-28" eq_refl Hnd eq_refl eq_refl)
    as (l1 & l2 & _ & H2 & _ & H4).
  exists l1, l2. split; [exact H2|exact H4].
Defined.

Lemma summarize_counts_match_listing_witness :
  expenses Z (sample_db Z 10 5 7) = Some (sample_table Z 10 5 7) /\
  exists gs listed,
    summarize Z Z.add 0 Z.leb no_faults (sample_db Z 10 5 7)
      "2024-02-01" "2024-02-28" None =
    (Arr Z (map (group_dict Z) gs), sample_db Z 10 5 7) /\
    list_expenses Z no_faults (sample_db Z 10 5 7)
      "2024-02-01" "2024-02-28" =
    (Arr Z (map (expense_dict Z) listed), sample_db Z 10 5 7) /\
    total_count Z gs = Z.of_nat (List.length listed).
Proof.
  split; [reflexivity|].
  destruct (summarize_counts_match_listing Z Z.add 0 Z.leb
              (sample_db Z 10 5 7) (sample_table Z 10 5 7)
              "2024-02-01" "2024-02-28" eq_refl)
    as (gs & listed & H1 & H2 & H3 & _).
  exists gs, listed. split; [exact H1|]. split; [exact H2|exact H3].
Defined.

Lemma summarize_filter_single_group_witness :
  expenses Z (sample_db Z 10 5 7) = Some (sample_table Z 10 5 7) /\
  "food" <> EmptyString /\
  exists gs,
    summarize Z Z.add 0 Z.leb no_faults (sample_db Z 10 5 7)
      "2024-02-01" "2024-02-28" (Some "food") =
    (Arr Z (map (group_dict Z) gs), sample_db Z 10 5 7) /\
    (List.length gs <= 1)%nat.
Proof.
  assert (Hne : "food" <> EmptyString) by discriminate.
  split; [reflexivity|]. split; [exact Hne|].
  destruct (summarize_filter_single_group Z Z.add 0 Z.leb
              (sample_db Z 10 5 7) (sample_table Z 10 5 7)
              "2024-02-01" "2024-02-28" "food" eq_refl Hne)
    as (gs & H1 & H2 & _).
  exists gs. split; [exact H1|exact H2].
Defined.
